(** * Email ingestion and ticket routing: the Zammad integration glue

    A shallow embedding of
      - [src/integrations/zammad.js]  (class [ZammadIntegration]) and
      - [src/cloudflare-worker/email-to-zammad.js]  (the e-mail worker),
    followed by the properties of the routing specification that concern
    them.

    Conventions.  JavaScript strings are [string]s holding the UTF-8
    bytes of the text, so that ASCII text has one character per byte;
    a property that may be [undefined] or [null] is an [option]; the
    JavaScript notion of truthiness is written out where the source
    relies on it ([x || d], [if (x)]).  Calls to the ticketing system and
    to the mail transport are effects: they run against an abstract
    upstream and are recorded in a trace of requests. *)

From Stdlib Require Import String Ascii List Bool ZArith Lia Arith.
Import ListNotations.
Local Open Scope string_scope.
Local Open Scope list_scope.
Local Open Scope nat_scope.

(* ===================================================================== *)
(** ** JavaScript string primitives used by the source                   *)
(* ===================================================================== *)

Module Js.

(** Truthiness of a possibly missing string: [undefined], [null] and
    the empty string are falsy. *)
Definition truthy (v : option string) : bool :=
  match v with
  | Some (String _ _) => true
  | _ => false
  end.

(** [v || d] for a possibly missing string [v] and a string [d]. *)
Definition or_else (v : option string) (d : string) : string :=
  match v with
  | Some (String c s) => String c s
  | _ => d
  end.

(** [a || b] where both sides may be missing; the right operand is the
    value when the left one is falsy. *)
Definition or_opt (a b : option string) : option string :=
  if truthy a then a else b.

Definition is_upper (c : ascii) : bool :=
  let n := nat_of_ascii c in (65 <=? n) && (n <=? 90).

Definition lower_char (c : ascii) : ascii :=
  if is_upper c then ascii_of_nat (nat_of_ascii c + 32) else c.

(** The folding of the ASCII letters, character by character. *)
Fixpoint lower_ascii (s : string) : string :=
  match s with
  | EmptyString => EmptyString
  | String c s' => String (lower_char c) (lower_ascii s')
  end.

Definition is_lower (c : ascii) : bool :=
  let n := nat_of_ascii c in (97 <=? n) && (n <=? 122).

(** The cased characters of ASCII are its letters. *)
Definition is_cased (c : ascii) : bool := is_upper c || is_lower c.

(** The case-ignorable characters of ASCII: apostrophe, full stop,
    colon, circumflex and grave accent. *)
Definition is_case_ignorable (c : ascii) : bool :=
  let n := nat_of_ascii c in
  (n =? 39) || (n =? 46) || (n =? 58) || (n =? 94) || (n =? 96).

(** The two bytes of a Greek capital sigma, U+03A3. *)
Definition is_capital_sigma (c1 c2 : ascii) : bool :=
  (nat_of_ascii c1 =? 206) && (nat_of_ascii c2 =? 163).

(** The two bytes of a Greek small sigma, U+03C3, or of its final form,
    U+03C2. *)
Definition is_small_sigma (c1 c2 : ascii) : bool :=
  (nat_of_ascii c1 =? 207) &&
  ((nat_of_ascii c2 =? 131) || (nat_of_ascii c2 =? 130)).

(** The two bytes of a character of the Latin-1 supplement, U+0080 to
    U+00FF. *)
Definition is_latin1 (c1 c2 : ascii) : bool :=
  let n1 := nat_of_ascii c1 in
  let n2 := nat_of_ascii c2 in
  ((n1 =? 194) || (n1 =? 195)) && (128 <=? n2) && (n2 <=? 191).

(** The two bytes of a capital letter of the Latin-1 supplement: U+00C0
    to U+00DE without the multiplication sign, U+00D7. *)
Definition is_latin1_capital (c1 c2 : ascii) : bool :=
  let n2 := nat_of_ascii c2 in
  (nat_of_ascii c1 =? 195) &&
  (128 <=? n2) && (n2 <=? 158) && negb (n2 =? 151).

(** The second byte of what a Latin-1 character is lower-cased to: the
    small letter stands 32 code points above its capital, under the same
    first byte. *)
Definition lower_latin1 (c1 c2 : ascii) : ascii :=
  if is_latin1_capital c1 c2 then ascii_of_nat (nat_of_ascii c2 + 32)
  else c2.

(** The cased characters of the Latin-1 supplement: the ordinal
    indicators U+00AA and U+00BA, the micro sign U+00B5, and the letters
    U+00C0 to U+00FF, which leaves out the multiplication and division
    signs, U+00D7 and U+00F7. *)
Definition is_latin1_cased (c1 c2 : ascii) : bool :=
  let n1 := nat_of_ascii c1 in
  let n2 := nat_of_ascii c2 in
  ((n1 =? 194) && ((n2 =? 170) || (n2 =? 181) || (n2 =? 186))) ||
  ((n1 =? 195) && (128 <=? n2) && (n2 <=? 191) &&
   negb (n2 =? 151) && negb (n2 =? 183)).

(** The case-ignorable characters of the Latin-1 supplement: diaeresis
    U+00A8, soft hyphen U+00AD, macron U+00AF, acute accent U+00B4,
    middle dot U+00B7 and cedilla U+00B8. *)
Definition is_latin1_case_ignorable (c1 c2 : ascii) : bool :=
  let n2 := nat_of_ascii c2 in
  (nat_of_ascii c1 =? 194) &&
  ((n2 =? 168) || (n2 =? 173) || (n2 =? 175) || (n2 =? 180) ||
   (n2 =? 183) || (n2 =? 184)).

(** A cased letter follows, with only case-ignorable characters in
    between. *)
Fixpoint cased_follows (s : string) : bool :=
  match s with
  | EmptyString => false
  | String c rest =>
      if is_cased c then true
      else if is_case_ignorable c then cased_follows rest
      else match rest with
           | String c2 rest2 =>
               is_capital_sigma c c2 || is_small_sigma c c2 ||
               is_latin1_cased c c2 ||
               (is_latin1_case_ignorable c c2 && cased_follows rest2)
           | EmptyString => false
           end
  end.

(** What [after_cased] becomes when an ASCII character has been read. *)
Definition after_char (after_cased : bool) (c : ascii) : bool :=
  if is_cased c then true
  else if is_case_ignorable c then after_cased
  else false.

(** What [after_cased] becomes when a Latin-1 character has been read. *)
Definition after_latin1 (after_cased : bool) (c1 c2 : ascii) : bool :=
  if is_latin1_cased c1 c2 then true
  else if is_latin1_case_ignorable c1 c2 then after_cased
  else false.

(** Lower-casing from left to right.  [after_cased] says that a cased
    letter came before, with only case-ignorable characters since.  A
    capital sigma becomes the final small sigma when a cased letter
    precedes it and none follows it, and the plain small sigma
    otherwise; a capital letter of the Latin-1 supplement becomes its
    small letter. *)
Fixpoint lower_from (after_cased : bool) (s : string) : string :=
  match s with
  | EmptyString => EmptyString
  | String c rest =>
      match rest with
      | String c2 rest2 =>
          if is_capital_sigma c c2 then
            let final := after_cased && negb (cased_follows rest2) in
            String (ascii_of_nat 207)
              (String (ascii_of_nat (if final then 130 else 131))
                 (lower_from true rest2))
          else if is_small_sigma c c2 then
            String c (String c2 (lower_from true rest2))
          else if is_latin1 c c2 then
            String c
              (String (lower_latin1 c c2)
                 (lower_from (after_latin1 after_cased c c2) rest2))
          else String (lower_char c)
                      (lower_from (after_char after_cased c) rest)
      | EmptyString => String (lower_char c) EmptyString
      end
  end.

(** [s.toLowerCase()] on text made of ASCII characters, characters of
    the Latin-1 supplement and Greek sigmas, that is the code points up
    to U+00FF and U+03A3, U+03C2, U+03C3.  The letters of ASCII and of
    Latin-1 are folded and the capital sigma takes the form its place in
    the word asks for.  Characters beyond these are left as they are,
    which is less than the builtin does: what is stated of the folding
    is stated of ASCII text, or of the strings shown. *)
Definition toLowerCase (s : string) : string := lower_from false s.

(** [s.startsWith(k)], the test [includes] repeats at every offset. *)
Fixpoint startsWith (s k : string) {struct k} : bool :=
  match k, s with
  | EmptyString, _ => true
  | String _ _, EmptyString => false
  | String ck k', String cs s' => Ascii.eqb cs ck && startsWith s' k'
  end.

(** [s.includes(k)]: [k] occurs in [s] as a contiguous substring. *)
Fixpoint includes (s k : string) : bool :=
  startsWith s k ||
  match s with
  | EmptyString => false
  | String _ s' => includes s' k
  end.

(** [s.split(sep)] for a one-character separator.  The result is never
    empty: splitting the empty string gives one empty segment. *)
Fixpoint split (sep : ascii) (s : string) : list string :=
  match s with
  | EmptyString => [EmptyString]
  | String c s' =>
      if Ascii.eqb c sep then EmptyString :: split sep s'
      else match split sep s' with
           | seg :: segs => String c seg :: segs
           | [] => [String c EmptyString]
           end
  end.

(** [xs[0]] of an array of strings. *)
Definition first (xs : list string) : option string := hd_error xs.

(** [xs.slice(1)]. *)
Definition slice1 (xs : list string) : list string := tl xs.

(** [xs.join(sep)]. *)
Definition join (sep : string) (xs : list string) : string :=
  String.concat sep xs.

(** White space in the sense of [\s] and of [trim], on ASCII text:
    space, tab, line feed, vertical tab, form feed, carriage return. *)
Definition is_space (c : ascii) : bool :=
  let n := nat_of_ascii c in
  (n =? 32) || ((9 <=? n) && (n <=? 13)).

Fixpoint trimStart (s : string) : string :=
  match s with
  | String c s' => if is_space c then trimStart s' else s
  | EmptyString => EmptyString
  end.

(** Drops trailing white space: a character is kept when something
    that is kept follows it, or when it is not white space. *)
Fixpoint trimEnd (s : string) : string :=
  match s with
  | EmptyString => EmptyString
  | String c s' =>
      match trimEnd s' with
      | EmptyString => if is_space c then EmptyString
                       else String c EmptyString
      | rest => String c rest
      end
  end.

(** [s.trim()]. *)
Definition trim (s : string) : string := trimEnd (trimStart s).

End Js.

(* ===================================================================== *)
(** ** Data model                                                        *)
(* ===================================================================== *)

(** [rule.match]: both keyword lists are optional. *)
Record RuleMatch := {
  toContains : option (list string);
  subjectContains : option (list string)
}.

(** [rule.action]. *)
Record RuleAction := {
  action_template : option string;
  action_priority : option string;
  action_tags : option (list string)
}.

(** A routing rule of a domain configuration.  The [match] and [action]
    objects are always present in a rule of the configuration file. *)
Record Rule := {
  rule_name : string;
  rule_match : RuleMatch;
  rule_action : RuleAction
}.

(** [email.from] as [createTicket] accepts it: a plain address, an
    object with optional [address] and [name], or nothing. *)
Inductive Sender :=
| SenderString (s : string)
| SenderObject (address name : option string)
| SenderMissing.

(** The e-mail object handed to [ZammadIntegration.createTicket]. *)
Record Email := {
  email_from : Sender;
  email_to : option string;
  email_subject : option string;
  email_body : option string;
  email_text : option string;
  email_html : option string
}.

(** [domainConfig.zammad]. *)
Record ZammadConfig := {
  zc_group : option string;
  zc_priority : option string
}.

(** The domain configuration as [createTicket] reads it. *)
Record DomainConfig := {
  dc_zammad : option ZammadConfig;
  dc_rules : option (list Rule)
}.

(* ===================================================================== *)
(** ** The upstream: ticketing API and mail transport                    *)
(* ===================================================================== *)

(** The address sent as [customerData.email].  In the worker it is always
    a string; in [createTicket] it is [email.from] itself when the
    [address] of a sender object is falsy. *)
Inductive Address :=
| Addr (s : string)
| AddrObject (address name : option string).

(** A customer record of the ticketing system. *)
Record Customer := {
  customer_id : option Z;
  customer_email : string;
  customer_firstname : string;
  customer_lastname : string
}.

(** [customerData]: what [findOrCreateCustomer] is called with. *)
Record CustomerData := {
  cd_email : Address;
  cd_firstname : string;
  cd_lastname : string
}.

(** [ticketData.article]. *)
Record Article := {
  article_subject : string;
  article_body : string;
  article_type : string;
  article_sender : string;
  article_from : Address;
  article_to : option string;
  article_content_type : string;
  article_internal : option bool
}.

(** The body of [POST /tickets]. *)
Record TicketData := {
  td_title : string;
  td_group : string;
  td_customer_id : option Z;
  td_article : Article;
  td_priority : string;
  td_state : string;
  td_tags : option string
}.

(** A created ticket as the ticketing system answers it. *)
Record Ticket := {
  ticket_id : option Z;
  ticket_title : string
}.

(** What a response carries.  The ticketing system answers in JSON of
    the shape of its contract, or [null], or with text that is not
    JSON. *)
Inductive Body (B : Type) :=
| NotJson (raw : string)
| JsonNull
| JsonValue (b : B).
Arguments NotJson {B} raw.
Arguments JsonNull {B}.
Arguments JsonValue {B} b.

(** The outcome of one HTTP exchange: no response at all (connection
    failure, timeout), or a status and a body. *)
Inductive Response (B : Type) :=
| NoResponse (message : string)
| Http (status : Z) (body : Body B).
Arguments NoResponse {B} message.
Arguments Http {B} status body.

(** [response.ok], and the default [validateStatus] of axios. *)
Definition status_ok (status : Z) : bool :=
  ((200 <=? status) && (status <=? 299))%Z.

(** What a promise rejects with. *)
Inductive Error :=
| TypeError
| SyntaxError
| NetworkError (message : string)
| HttpError (status : Z)
| PlainError (message : string).

(** The requests the code issues, in the order it issues them. *)
Inductive Request :=
| SearchUsers (baseUrl : string) (query : Address)
| CreateUser (baseUrl : string) (data : CustomerData) (roles : list string)
| CreateTicket (baseUrl : string) (data : TicketData)
| Forward (dest : string).

(** An upstream with a state of its own: how the ticketing system
    answers each call, and whether [message.forward] succeeds. *)
Record Upstream (U : Type) := {
  on_search : string -> Address -> U -> Response (list Customer) * U;
  on_create_user :
    string -> CustomerData -> list string -> U -> Response Customer * U;
  on_create_ticket : string -> TicketData -> U -> Response Ticket * U;
  on_forward : string -> U -> option Error * U
}.
Arguments on_search {U} _ _ _ _.
Arguments on_create_user {U} _ _ _ _ _.
Arguments on_create_ticket {U} _ _ _ _.
Arguments on_forward {U} _ _ _.

(** The world a call runs in: the upstream's state and the requests
    issued so far, oldest first. *)
Record World (U : Type) := {
  upstream : U;
  trace : list Request
}.
Arguments upstream {U} _.
Arguments trace {U} _.

(** A settled promise. *)
Inductive Outcome (A : Type) :=
| Returned (a : A)
| Thrown (e : Error).
Arguments Returned {A} a.
Arguments Thrown {A} e.

(** Asynchronous code: from a world to an outcome and the next world. *)
Definition M (U A : Type) : Type := World U -> Outcome A * World U.

Definition ret {U A} (a : A) : M U A := fun w => (Returned a, w).

Definition throw {U A} (e : Error) : M U A := fun w => (Thrown e, w).

Definition bind {U A B} (m : M U A) (k : A -> M U B) : M U B :=
  fun w =>
    match m w with
    | (Returned a, w') => k a w'
    | (Thrown e, w') => (Thrown e, w')
    end.

(** [try { m } catch (error) { handler }]. *)
Definition try_catch {U A} (m : M U A) (handler : Error -> M U A) : M U A :=
  fun w =>
    match m w with
    | (Returned a, w') => (Returned a, w')
    | (Thrown e, w') => handler e w'
    end.

(** Settle a value that was computed without touching the upstream. *)
Definition settle {U A} (o : Outcome A) : M U A := fun w => (o, w).

Declare Scope js_scope.
Delimit Scope js_scope with js.
Notation "x <- m ;; k" := (bind m (fun x => k))
  (at level 61, m at next level, right associativity) : js_scope.
Notation "m ;;; k" := (bind m (fun _ => k))
  (at level 61, right associativity) : js_scope.
Local Open Scope js_scope.

Section Calls.

Context {U : Type}.
Variable srv : Upstream U.

(** One exchange: the request is recorded and the upstream answers. *)
Definition exchange {B} (req : Request) (answer : U -> Response B * U)
  : M U (Response B) :=
  fun w =>
    let (r, u') := answer (upstream w) in
    (Returned r, {| upstream := u'; trace := trace w ++ [req] |}).

Definition call_search (baseUrl : string) (query : Address) :=
  exchange (SearchUsers baseUrl query) (on_search srv baseUrl query).

(** [POST /users] with [{...customerData, roles}]. *)
Definition call_create_user (baseUrl : string) (data : CustomerData)
    (roles : list string) :=
  exchange (CreateUser baseUrl data roles)
           (on_create_user srv baseUrl data roles).

Definition call_create_ticket (baseUrl : string) (data : TicketData) :=
  exchange (CreateTicket baseUrl data) (on_create_ticket srv baseUrl data).

(** [await message.forward(dest)]. *)
Definition forward (dest : string) : M U unit :=
  fun w =>
    let (r, u') := on_forward srv dest (upstream w) in
    let w' := {| upstream := u'; trace := trace w ++ [Forward dest] |} in
    match r with
    | None => (Returned tt, w')
    | Some e => (Thrown e, w')
    end.

(** [await fetch(...)]: rejects only when there is no response. *)
Definition fetch {B} (call : M U (Response B)) : M U (Z * Body B) :=
  r <- call ;;
  match r with
  | NoResponse message => throw (NetworkError message)
  | Http status body => ret (status, body)
  end.

(** [await response.json()]. *)
Definition json {B} (body : Body B) : M U (option B) :=
  match body with
  | NotJson _ => throw SyntaxError
  | JsonNull => ret None
  | JsonValue b => ret (Some b)
  end.

(** A call through the axios client: resolves to [response.data] on a
    2xx status and rejects otherwise.  Text that is not JSON is handed
    over as it came. *)
Definition axios {B} (call : M U (Response B)) : M U (Body B) :=
  r <- call ;;
  match r with
  | NoResponse message => throw (NetworkError message)
  | Http status body =>
      if status_ok status then ret body else throw (HttpError status)
  end.

End Calls.

(* ===================================================================== *)
(** ** [src/integrations/zammad.js]: class [ZammadIntegration]           *)
(* ===================================================================== *)

Module ZammadIntegration.

(** The [config] object given to the constructor. *)
Record Config := {
  ZAMMAD_URL : option string;
  ZAMMAD_API_TOKEN : option string;
  ZAMMAD_ENABLED : option string
}.

(** The fields of an instance; the axios client is determined by
    [baseUrl] and [apiToken]. *)
Record Instance := {
  baseUrl : string;
  apiToken : option string;
  enabled : bool
}.

(** [config.ZAMMAD_ENABLED !== 'false']. *)
Definition not_false (v : option string) : bool :=
  match v with
  | Some s => negb (String.eqb s "false")
  | None => true
  end.

(** *** [constructor]  (lines 9-27) *)
Definition constructor (config : Config) : Instance :=
  let baseUrl := Js.or_else (ZAMMAD_URL config) "https://help.vln.gg" in
  let apiToken := ZAMMAD_API_TOKEN config in
  let enabled := not_false (ZAMMAD_ENABLED config) in
  let enabled :=
    if negb (Js.truthy apiToken) && enabled then false else enabled in
  {| baseUrl := baseUrl; apiToken := apiToken; enabled := enabled |}.

(** [baseURL] of the axios client. *)
Definition client_base (this : Instance) : string :=
  (baseUrl this ++ "/api/v1")%string.

(** *** [findMatchingRule]  (lines 127-151) *)

(** The body of the loop: the value of [matches] when the two [if]
    blocks have run. *)
Definition rule_test (email : Email) (rule : Rule) : bool :=
  let matches := true in
  let matches :=
    match toContains (rule_match rule) with
    | Some keywords =>
        let toField := Js.toLowerCase (Js.or_else (email_to email) "") in
        matches &&
        existsb (fun keyword => Js.includes toField (Js.toLowerCase keyword))
                keywords
    | None => matches
    end in
  let matches :=
    match subjectContains (rule_match rule) with
    | Some keywords =>
        let subject := Js.toLowerCase (Js.or_else (email_subject email) "") in
        matches &&
        existsb (fun keyword => Js.includes subject (Js.toLowerCase keyword))
                keywords
    | None => matches
    end in
  matches.

(** [for (const rule of rules) { ...; if (matches) return rule; }
    return null]. *)
Fixpoint findMatchingRule (email : Email) (rules : list Rule) : option Rule :=
  match rules with
  | [] => None
  | rule :: rest =>
      if rule_test email rule then Some rule
      else findMatchingRule email rest
  end.

(** *** [findMatchingRule] on objects held in a store

    [findMatchingRule] receives references to the e-mail object and to
    the array that lives in the domain configuration.  Code that runs on
    the store may read it and may write it; the loop below is the loop
    of the source written with the reads it makes. *)

Record Store := {
  store_email : Email;
  store_config : DomainConfig
}.

Definition store_rules (st : Store) : list Rule :=
  match dc_rules (store_config st) with
  | Some rules => rules
  | None => []
  end.

Definition St (A : Type) : Type := Store -> A * Store.

Definition st_ret {A} (a : A) : St A := fun st => (a, st).

Definition st_bind {A B} (m : St A) (k : A -> St B) : St B :=
  fun st => let (a, st') := m st in k a st'.

(** Reading a property of a stored object. *)
Definition st_read {A} (get : Store -> A) : St A := fun st => (get st, st).

(** Assigning to a property of a stored object. *)
Definition st_write (set : Store -> Store) : St unit :=
  fun st => (tt, set st).

(** [array.some(callback)]: the callback is called on each element in
    turn until one call returns true. *)
Fixpoint st_some {A} (xs : list A) (callback : A -> St bool) : St bool :=
  match xs with
  | [] => st_ret false
  | x :: rest =>
      st_bind (callback x)
              (fun found => if found then st_ret true
                            else st_some rest callback)
  end.

(** One block [if (rule.match.list) { const field = ...;
    matches = matches && rule.match.list.some(...); }].  The field of
    the e-mail is read first; [&&] calls [some] only when [matches] is
    still true. *)
Definition match_block (declared : option (list string))
    (field : Store -> option string) (matches : bool) : St bool :=
  match declared with
  | Some keywords =>
      st_bind (st_read field)
        (fun value =>
           let lowered := Js.toLowerCase (Js.or_else value "") in
           if matches then
             st_some keywords
               (fun keyword =>
                  st_ret (Js.includes lowered (Js.toLowerCase keyword)))
           else st_ret false)
  | None => st_ret matches
  end.

(** The body of the loop for the rule read at this step: the value of
    [matches] at [if (matches)]. *)
Definition loop_body (rule : Rule) : St bool :=
  st_bind (match_block (toContains (rule_match rule))
                       (fun st => email_to (store_email st)) true)
          (fun matches =>
             match_block (subjectContains (rule_match rule))
                         (fun st => email_subject (store_email st))
                         matches).

(** [for (const rule of rules) { body; if (matches) return rule; }
    return null]: the iterator reads the array at the next index at each
    step. *)
Fixpoint for_of (body : Rule -> St bool) (fuel i : nat) : St (option Rule) :=
  match fuel with
  | O => st_ret None
  | S fuel' =>
      st_bind (st_read (fun st => nth_error (store_rules st) i))
        (fun next =>
           match next with
           | None => st_ret None
           | Some rule =>
               st_bind (body rule)
                 (fun matches =>
                    if matches then st_ret (Some rule)
                    else for_of body fuel' (S i))
           end)
  end.

(** The call [this.findMatchingRule(email, domainConfig.rules)] on the
    stored objects.  The array has [length] elements, so that many steps
    and one more for the end of the iteration are enough as long as the
    array keeps its length. *)
Definition findMatchingRule_st : St (option Rule) :=
  fun st => for_of loop_body (S (List.length (store_rules st))) 0 st.

(** A loop body that empties the rule list before it answers: not the
    body of the source, kept to show what a write does. *)
Definition clearing_body (rule : Rule) : St bool :=
  st_bind (st_write (fun st =>
                       {| store_email := store_email st;
                          store_config :=
                            {| dc_zammad := dc_zammad (store_config st);
                               dc_rules := Some [] |} |}))
          (fun _ => st_ret false).

(** The value bound to [customer]: [response.data] of the search or of
    the creation, or one element of it. *)
Definition CustomerValue := Body Customer.

(** [customer.id].  Reading a property of [null] throws; a string has
    no [id]. *)
Definition read_customer_id (customer : CustomerValue) : Outcome (option Z) :=
  match customer with
  | JsonNull => Thrown TypeError
  | NotJson _ => Returned None
  | JsonValue c => Returned (customer_id c)
  end.

(** [response.data.id], read for the log line. *)
Definition read_ticket_id (data : Body Ticket) : Outcome (option Z) :=
  match data with
  | JsonNull => Thrown TypeError
  | NotJson _ => Returned None
  | JsonValue t => Returned (ticket_id t)
  end.

(** [email.from.address || email.from]. *)
Definition customerEmail_of (from : Sender) : Outcome Address :=
  match from with
  | SenderMissing => Thrown TypeError
  | SenderString s => Returned (Addr s)
  | SenderObject address name =>
      match address with
      | Some (String c a) => Returned (Addr (String c a))
      | _ => Returned (AddrObject address name)
      end
  end.

(** [email.from.name || customerEmail.split('@')[0]]. *)
Definition customerName_of (from : Sender) (customerEmail : Address)
  : Outcome string :=
  let from_address :=
    match customerEmail with
    | Addr s => Returned (Js.or_else (Js.first (Js.split "@" s)) "")
    | AddrObject _ _ => Thrown TypeError
    end in
  match from with
  | SenderMissing => Thrown TypeError
  | SenderString _ => from_address
  | SenderObject _ name =>
      match name with
      | Some (String c n) => Returned (String c n)
      | _ => from_address
      end
  end.

(** [customerName.split(' ')[0] || customerName]. *)
Definition firstname_of (customerName : string) : string :=
  Js.or_else (Js.first (Js.split " " customerName)) customerName.

(** [customerName.split(' ').slice(1).join(' ') || '']. *)
Definition lastname_of (customerName : string) : string :=
  Js.or_else (Some (Js.join " " (Js.slice1 (Js.split " " customerName)))) "".

(** [zammadConfig.group || 'Users'] with
    [zammadConfig = domainConfig.zammad || {}]. *)
Definition group_of (domainConfig : DomainConfig) : string :=
  match dc_zammad domainConfig with
  | Some z => Js.or_else (zc_group z) "Users"
  | None => "Users"
  end.

(** [zammadConfig.priority || '2 normal']. *)
Definition priority_of (domainConfig : DomainConfig) : string :=
  match dc_zammad domainConfig with
  | Some z => Js.or_else (zc_priority z) "2 normal"
  | None => "2 normal"
  end.

(** The tags set by lines 74-79, if any: the tags of the matching rule
    joined by commas. *)
Definition tags_of (email : Email) (domainConfig : DomainConfig)
  : option string :=
  match dc_rules domainConfig with
  | Some (r :: rs) =>
      match findMatchingRule email (r :: rs) with
      | Some matchingRule =>
          match action_tags (rule_action matchingRule) with
          | Some tags => Some (Js.join "," tags)
          | None => None
          end
      | None => None
      end
  | _ => None
  end.

(** [ticketData] of lines 56-79. *)
Definition ticketData_of (email : Email) (domainConfig : DomainConfig)
    (customerEmail : Address) (customer_id : option Z) : TicketData :=
  {| td_title := Js.or_else (email_subject email) "(No Subject)";
     td_group := group_of domainConfig;
     td_customer_id := customer_id;
     td_article :=
       {| article_subject := Js.or_else (email_subject email) "(No Subject)";
          article_body :=
            Js.or_else (Js.or_opt (email_body email) (email_text email)) "";
          article_type := "email";
          article_sender := "Customer";
          article_from := customerEmail;
          article_to := email_to email;
          article_content_type :=
            if Js.truthy (email_html email) then "text/html"
            else "text/plain";
          article_internal := None |};
     td_priority := priority_of domainConfig;
     td_state := "new";
     td_tags := tags_of email domainConfig |}.

(** The text of an [error] field: a literal of the source, or the
    [message] of the error that was caught. *)
Inductive ErrorText :=
| Text (s : string)
| MessageOf (e : Error).

(** What [testConnection] resolves to: [{ success: true, user }] or
    [{ success: false, error }]. *)
Inductive ConnectionResult :=
| Connected (user : Body Customer)
| NotConnected (error : ErrorText).

Section Methods.

Context {U : Type}.
Variable srv : Upstream U.
Variable this : Instance.

(** *** [findOrCreateCustomer]  (lines 99-122) *)
Definition findOrCreateCustomer (customerData : CustomerData)
  : M U CustomerValue :=
  try_catch
    (data <- axios (call_search srv (client_base this)
                                (cd_email customerData)) ;;
     let found :=
       match data with
       | JsonValue (c :: _) => Some (JsonValue c)
       | NotJson (String c _) => Some (NotJson (String c EmptyString))
       | _ => None
       end in
     match found with
     | Some customer => ret customer
     | None =>
         axios (call_create_user srv (client_base this) customerData
                                 ["Customer"])
     end)
    (fun error => throw error).

(** *** [createTicket]  (lines 35-94) *)
Definition createTicket (email : Email) (domainConfig : DomainConfig)
  : M U (option (Body Ticket)) :=
  if negb (enabled this) then ret None
  else
    try_catch
      (customerEmail <- settle (customerEmail_of (email_from email)) ;;
       customerName <-
         settle (customerName_of (email_from email) customerEmail) ;;
       customer <-
         findOrCreateCustomer
           {| cd_email := customerEmail;
              cd_firstname := firstname_of customerName;
              cd_lastname := lastname_of customerName |} ;;
       customer_id <- settle (read_customer_id customer) ;;
       let ticketData :=
         ticketData_of email domainConfig customerEmail customer_id in
       data <- axios (call_create_ticket srv (client_base this)
                                         ticketData) ;;
       settle (read_ticket_id data) ;;;
       ret (Some data))
      (fun error => throw error).

(** *** [testConnection]  (lines 156-173)

    [GET /users/me] is answered by [on_me].  The probe is not one of the
    requests of the ticket pipeline, and the trace keeps those only. *)
Definition testConnection (on_me : U -> Response Customer * U)
  : M U ConnectionResult :=
  if negb (enabled this)
  then ret (NotConnected (Text "Zammad integration disabled"))
  else
    try_catch
      (data <- axios (fun w =>
                        let (r, u') := on_me (upstream w) in
                        (Returned r,
                         {| upstream := u'; trace := trace w |})) ;;
       ret (Connected data))
      (fun error => ret (NotConnected (MessageOf error))).

End Methods.

End ZammadIntegration.

(* ===================================================================== *)
(** ** [src/cloudflare-worker/email-to-zammad.js]: the e-mail worker     *)
(* ===================================================================== *)

Module Worker.

(** The bindings of the worker. *)
Record Env := {
  ZAMMAD_URL : option string;
  ZAMMAD_API_TOKEN : option string;
  FORWARD_TO : option string
}.

(** The message the mail transport delivers.  Header names are in lower
    case, one entry per name.  Reading the raw stream and the two bodies
    is asynchronous and may reject. *)
Record Message := {
  msg_from : string;
  msg_to : string;
  msg_headers : list (string * string);
  msg_raw : Outcome string;
  msg_text : Outcome (option string);
  msg_html : Outcome (option string)
}.

(** The object [parseEmail] builds. *)
Record Parsed := {
  from : string;
  to : string;
  subject : option string;
  text : option string;
  html : option string;
  headers : list (string * string);
  rawEmail : string
}.

(** [message.headers.get(name)]. *)
Fixpoint headers_get (name : string) (hs : list (string * string))
  : option string :=
  match hs with
  | [] => None
  | (k, v) :: rest =>
      if String.eqb k name then Some v else headers_get name rest
  end.

(** [await message.html() || null]: a falsy body becomes [null]. *)
Definition or_null (v : option string) : option string :=
  if Js.truthy v then v else None.

(** *** [extractName]  (lines 173-176)

    The pattern anchors at the start, skips one double quote if there is
    one, captures the longest non-empty run of characters other than a
    double quote and the opening angle bracket, and then wants an
    optional double quote, white space and an opening angle bracket.  A
    shorter capture cannot succeed where the longest fails, so the
    longest is the only one to try. *)

Definition quote : ascii := ascii_of_nat 34.
Definition langle : ascii := ascii_of_nat 60.

Definition name_char (c : ascii) : bool :=
  negb (Ascii.eqb c quote) && negb (Ascii.eqb c langle).

(** The longest prefix of [name_char]s, and what follows it. *)
Fixpoint capture (s : string) : string * string :=
  match s with
  | EmptyString => (EmptyString, EmptyString)
  | String c s' =>
      if name_char c then
        let (g, rest) := capture s' in (String c g, rest)
      else (EmptyString, s)
  end.

(** The tail of the pattern at the head of [s]: an optional double
    quote, white space, an opening angle bracket. *)
Definition closes (s : string) : bool :=
  let after_quote :=
    match s with
    | String c s' => if Ascii.eqb c quote then s' else s
    | EmptyString => s
    end in
  match Js.trimStart after_quote with
  | String c _ => Ascii.eqb c langle
  | EmptyString => false
  end.

Definition extractName (emailAddress : string) : option string :=
  let start :=
    match emailAddress with
    | String c s' => if Ascii.eqb c quote then s' else emailAddress
    | EmptyString => emailAddress
    end in
  match capture start with
  | (EmptyString, _) => None
  | (group, rest) => if closes rest then Some (Js.trim group) else None
  end.

(** [ZAMMAD_URL] of lines 62: [env.ZAMMAD_URL || 'https://help.vln.gg']. *)
Definition zammad_url (env : Env) : string :=
  Js.or_else (ZAMMAD_URL env) "https://help.vln.gg".

(** [ticketData] of lines 83-99. *)
Definition ticketData_of (email : Parsed) (customerEmail : string)
    (customer_id : option Z) : TicketData :=
  {| td_title := Js.or_else (subject email) "(No Subject)";
     td_group := "Users";
     td_customer_id := customer_id;
     td_article :=
       {| article_subject := Js.or_else (subject email) "(No Subject)";
          article_body := Js.or_else (Js.or_opt (text email) (html email)) "";
          article_type := "email";
          article_sender := "Customer";
          article_from := Addr customerEmail;
          article_to := Some (to email);
          article_content_type :=
            if Js.truthy (html email) then "text/html" else "text/plain";
          article_internal := Some false |};
     td_priority := "2 normal";
     td_state := "new";
     td_tags := None |}.

(** [customer.id], where [customer] is a record or [null]. *)
Definition read_customer_id (customer : option Customer)
  : Outcome (option Z) :=
  match customer with
  | None => Thrown TypeError
  | Some c => Returned (customer_id c)
  end.

Section Handlers.

Context {U : Type}.
Variable srv : Upstream U.

(** *** [parseEmail]  (lines 44-56) *)
Definition parseEmail (message : Message) : M U Parsed :=
  rawEmail <- settle (msg_raw message) ;;
  let subject := headers_get "subject" (msg_headers message) in
  text <- settle (msg_text message) ;;
  html <- settle (msg_html message) ;;
  ret {| from := msg_from message;
         to := msg_to message;
         subject := subject;
         text := text;
         html := or_null html;
         headers := msg_headers message;
         rawEmail := rawEmail |}.

(** *** [findOrCreateCustomer]  (lines 127-168) *)
Definition findOrCreateCustomer (baseUrl : string)
    (customerData : CustomerData) : M U (option Customer) :=
  try_catch
    (searchResponse <- fetch (call_search srv (baseUrl ++ "/api/v1")%string
                                          (cd_email customerData)) ;;
     found <-
       (let (status, body) := searchResponse in
        if status_ok status then
          results <- json body ;;
          match results with
          | Some (c :: _) => ret (Some c)
          | _ => ret None
          end
        else ret None) ;;
     match found with
     | Some customer => ret (Some customer)
     | None =>
         createResponse <-
           fetch (call_create_user srv (baseUrl ++ "/api/v1")%string
                                   customerData ["Customer"]) ;;
         let (status, body) := createResponse in
         if negb (status_ok status)
         then throw (PlainError "Failed to create customer")
         else json body
     end)
    (fun error => throw error).

(** *** [createZammadTicket]  (lines 61-122) *)
Definition createZammadTicket (email : Parsed) (env : Env)
  : M U (option Ticket) :=
  let ZAMMAD_URL := zammad_url env in
  if negb (Js.truthy (ZAMMAD_API_TOKEN env)) then ret None
  else
    try_catch
      (let customerEmail := from email in
       let customerName :=
         Js.or_else
           (Js.or_opt (extractName (from email))
                      (Js.first (Js.split "@" customerEmail))) "" in
       customer <-
         findOrCreateCustomer ZAMMAD_URL
           {| cd_email := Addr customerEmail;
              cd_firstname :=
                Js.or_else (Js.first (Js.split " " customerName))
                           customerName;
              cd_lastname :=
                Js.or_else
                  (Some (Js.join " " (Js.slice1 (Js.split " " customerName))))
                  "" |} ;;
       customer_id <- settle (read_customer_id customer) ;;
       let ticketData := ticketData_of email customerEmail customer_id in
       response <-
         fetch (call_create_ticket srv (ZAMMAD_URL ++ "/api/v1")%string
                                   ticketData) ;;
       let (status, body) := response in
       if negb (status_ok status) then ret None
       else json body)
      (fun _ => ret None).

(** *** [email]  (lines 12-38), the entry point *)
Definition email (message : Message) (env : Env) : M U unit :=
  try_catch
    (email <- parseEmail message ;;
     createZammadTicket email env ;;;
     if Js.truthy (FORWARD_TO env)
     then forward srv (Js.or_else (FORWARD_TO env) "")
     else ret tt)
    (fun _ =>
       if Js.truthy (FORWARD_TO env)
       then forward srv (Js.or_else (FORWARD_TO env) "")
       else ret tt).

End Handlers.

End Worker.

(* ===================================================================== *)
(** ** Concrete upstreams                                                *)
(* ===================================================================== *)

Module Reference.

(** An in-memory ticketing system and mailbox. *)
Record Directory := {
  users : list Customer;
  tickets : list TicketData;
  next_id : Z;
  forwarded : list string
}.

Definition empty : Directory :=
  {| users := []; tickets := []; next_id := 1%Z; forwarded := [] |}.

(** The query string the server receives for an address. *)
Definition query_text (a : Address) : string :=
  match a with
  | Addr s => s
  | AddrObject _ _ => "[object Object]"
  end.

(** A ticketing system that stores what it is sent.  [hit] decides which
    users a search returns; [ticket_status] is the status the ticket
    endpoint answers with, and a ticket is stored only on a 2xx. *)
Definition directory (hit : string -> Customer -> bool) (ticket_status : Z)
  : Upstream Directory :=
  {| on_search := fun _ query d =>
       (Http 200 (JsonValue (filter (hit (query_text query)) (users d))), d);
     on_create_user := fun _ data _ d =>
       let c := {| customer_id := Some (next_id d);
                   customer_email := query_text (cd_email data);
                   customer_firstname := cd_firstname data;
                   customer_lastname := cd_lastname data |} in
       (Http 201 (JsonValue c),
        {| users := users d ++ [c]; tickets := tickets d;
           next_id := (next_id d + 1)%Z; forwarded := forwarded d |});
     on_create_ticket := fun _ data d =>
       if status_ok ticket_status then
         (Http ticket_status
               (JsonValue {| ticket_id := Some (next_id d);
                             ticket_title := td_title data |}),
          {| users := users d; tickets := tickets d ++ [data];
             next_id := (next_id d + 1)%Z; forwarded := forwarded d |})
       else (Http ticket_status (NotJson "error"), d);
     on_forward := fun dest d =>
       (None,
        {| users := users d; tickets := tickets d; next_id := next_id d;
           forwarded := forwarded d ++ [dest] |}) |}.

(** Search by equality of the e-mail address. *)
Definition exact (query : string) (c : Customer) : bool :=
  String.eqb (customer_email c) query.

(** Full-text search: every user whose address contains the query. *)
Definition fulltext (query : string) (c : Customer) : bool :=
  Js.includes (customer_email c) query.

(** A ticketing system whose ticket endpoint does not answer. *)
Definition dropping : Upstream Directory :=
  {| on_search := on_search (directory exact 201);
     on_create_user := on_create_user (directory exact 201);
     on_create_ticket := fun _ _ d => (NoResponse "timeout", d);
     on_forward := on_forward (directory exact 201) |}.

(** An upstream that cannot be reached, and a transport that refuses to
    forward. *)
Definition unreachable : Upstream unit :=
  {| on_search := fun _ _ u => (NoResponse "timeout", u);
     on_create_user := fun _ _ _ u => (NoResponse "timeout", u);
     on_create_ticket := fun _ _ u => (NoResponse "timeout", u);
     on_forward := fun _ u => (Some (PlainError "forward failed"), u) |}.

End Reference.

(** A world in which nothing has been requested yet. *)
Definition start {U} (u : U) : World U := {| upstream := u; trace := [] |}.

(** The same upstream with another behaviour of [message.forward]. *)
Definition with_forward {U} (f : string -> U -> option Error * U)
    (srv : Upstream U) : Upstream U :=
  {| on_search := on_search srv;
     on_create_user := on_create_user srv;
     on_create_ticket := on_create_ticket srv;
     on_forward := f |}.

(** Requests by kind. *)
Definition is_search (r : Request) : bool :=
  match r with SearchUsers _ _ => true | _ => false end.
Definition is_create_user (r : Request) : bool :=
  match r with CreateUser _ _ _ => true | _ => false end.
Definition is_create_ticket (r : Request) : bool :=
  match r with CreateTicket _ _ => true | _ => false end.

Definition count (p : Request -> bool) (rs : list Request) : nat :=
  List.length (filter p rs).

(** The error a failed exchange is reported with: the message when
    there was no response, the status when it was outside 2xx. *)
Definition failure_error {B} (r : Response B) : option Error :=
  match r with
  | NoResponse message => Some (NetworkError message)
  | Http status _ =>
      if status_ok status then None else Some (HttpError status)
  end.

(** Whether a search answered with at least one customer, and which one
    comes first. *)
Definition first_result (r : Response (list Customer)) : option Customer :=
  match r with
  | Http status (JsonValue (c :: _)) =>
      if status_ok status then Some c else None
  | _ => None
  end.

(** The entry point with the two [if (env.FORWARD_TO)] blocks taken out:
    what is left is parsing and ticket creation. *)
Definition ticket_phase {U} (srv : Upstream U) (message : Worker.Message)
    (env : Worker.Env) : M U unit :=
  try_catch
    (email <- Worker.parseEmail message ;;
     Worker.createZammadTicket srv email env ;;;
     ret tt)
    (fun _ => ret tt).

(** The transport delivers the same message twice, one delivery after
    the other. *)
Definition deliveries {U} (srv : Upstream U) (message : Worker.Message)
    (env : Worker.Env) : M U unit :=
  Worker.email srv message env ;;; Worker.email srv message env.

(* ===================================================================== *)
(** ** Sample inputs                                                     *)
(* ===================================================================== *)

Module Sample.

Definition message : Worker.Message :=
  {| Worker.msg_from := "ann@b.com";
     Worker.msg_to := "sales@example.com";
     Worker.msg_headers :=
       [("message-id", "<m1@b.com>"); ("subject", "quote request")];
     Worker.msg_raw := Returned "raw";
     Worker.msg_text := Returned (Some "hello");
     Worker.msg_html := Returned (Some "<p>hello</p>") |}.

(** A message whose body cannot be read. *)
Definition unreadable : Worker.Message :=
  {| Worker.msg_from := "ann@b.com";
     Worker.msg_to := "sales@example.com";
     Worker.msg_headers := [("subject", "quote request")];
     Worker.msg_raw := Returned "raw";
     Worker.msg_text := Thrown TypeError;
     Worker.msg_html := Returned None |}.

Definition env : Worker.Env :=
  {| Worker.ZAMMAD_URL := None;
     Worker.ZAMMAD_API_TOKEN := Some "secret";
     Worker.FORWARD_TO := Some "me@home.example" |}.

Definition parsed : Worker.Parsed :=
  {| Worker.from := "ann@b.com";
     Worker.to := "sales@example.com";
     Worker.subject := Some "quote request";
     Worker.text := Some "hello";
     Worker.html := Some "<p>hello</p>";
     Worker.headers :=
       [("message-id", "<m1@b.com>"); ("subject", "quote request")];
     Worker.rawEmail := "raw" |}.

Definition config : ZammadIntegration.Config :=
  {| ZammadIntegration.ZAMMAD_URL := None;
     ZammadIntegration.ZAMMAD_API_TOKEN := Some "secret";
     ZammadIntegration.ZAMMAD_ENABLED := None |}.

Definition switched_off : ZammadIntegration.Config :=
  {| ZammadIntegration.ZAMMAD_URL := None;
     ZammadIntegration.ZAMMAD_API_TOKEN := Some "secret";
     ZammadIntegration.ZAMMAD_ENABLED := Some "false" |}.

Definition no_token : ZammadIntegration.Config :=
  {| ZammadIntegration.ZAMMAD_URL := None;
     ZammadIntegration.ZAMMAD_API_TOKEN := None;
     ZammadIntegration.ZAMMAD_ENABLED := None |}.

Definition email : Email :=
  {| email_from := SenderObject (Some "ann@b.com") (Some "Ann Lee");
     email_to := Some "sales@example.com";
     email_subject := Some "quote request";
     email_body := None;
     email_text := Some "hello";
     email_html := Some "<p>hello</p>" |}.

Definition sales_rule : Rule :=
  {| rule_name := "Sales Inquiries";
     rule_match := {| toContains := Some ["sales"; "pricing"];
                      subjectContains := Some ["quote"; "pricing"] |};
     rule_action := {| action_template := Some "sales";
                       action_priority := Some "high";
                       action_tags := Some ["sales"; "lead"] |} |}.

Definition domain : DomainConfig :=
  {| dc_zammad := None; dc_rules := Some [sales_rule] |}.

Definition bob : Customer :=
  {| customer_id := Some 7%Z;
     customer_email := "bob@example.com";
     customer_firstname := "Bob";
     customer_lastname := "" |}.

(** A directory that knows one customer. *)
Definition with_bob : Reference.Directory :=
  {| Reference.users := [bob]; Reference.tickets := [];
     Reference.next_id := 8%Z; Reference.forwarded := [] |}.

Definition rob : CustomerData :=
  {| cd_email := Addr "ob@example.com";
     cd_firstname := "ob"; cd_lastname := "" |}.

End Sample.

(* ===================================================================== *)
(** ** Rule matching in the words of the specification                   *)
(* ===================================================================== *)

(** Two strings that differ at most in the case of their letters. *)
Definition same_ignoring_case (a b : string) : Prop :=
  Js.toLowerCase a = Js.toLowerCase b.

(** What the source compares: the lower-cased keyword occurs in the
    lower-cased field. *)
Definition lowered_occurs (field keyword : string) : Prop :=
  exists pre post,
    Js.toLowerCase field = (pre ++ Js.toLowerCase keyword ++ post)%string.

(** Two characters are the same letter: they are equal, or one is an
    upper-case ASCII letter and the other the lower-case letter 32 code
    points above it. *)
Definition same_letter (c1 c2 : ascii) : bool :=
  let n1 := nat_of_ascii c1 in
  let n2 := nat_of_ascii c2 in
  (n1 =? n2) ||
  ((65 <=? n1) && (n1 <=? 90) && (n2 =? n1 + 32)) ||
  ((65 <=? n2) && (n2 <=? 90) && (n1 =? n2 + 32)).

(** Two strings equal up to the case of letters, character by
    character. *)
Fixpoint equal_ignoring_case (a b : string) : bool :=
  match a, b with
  | EmptyString, EmptyString => true
  | String c1 a', String c2 b' => same_letter c1 c2 && equal_ignoring_case a' b'
  | _, _ => false
  end.

(** Case-insensitive substring: some contiguous part of [field] is the
    keyword up to the case of letters. *)
Definition occurs_ignoring_case (field keyword : string) : Prop :=
  exists pre mid post,
    field = (pre ++ mid ++ post)%string /\
    equal_ignoring_case mid keyword = true.

(** A match field is satisfied when it is not declared, or when one of
    its keywords occurs in the message field (OR across keywords). *)
Definition field_satisfied (occurs : string -> string -> Prop)
    (declared : option (list string)) (field : string) : Prop :=
  match declared with
  | None => True
  | Some keywords =>
      exists keyword, In keyword keywords /\ occurs field keyword
  end.

(** A rule matches when every field it declares is satisfied (AND across
    fields).  A missing [to] or [subject] counts as the empty string. *)
Definition fully_matches (occurs : string -> string -> Prop)
    (email : Email) (rule : Rule) : Prop :=
  field_satisfied occurs (toContains (rule_match rule))
                  (Js.or_else (email_to email) "") /\
  field_satisfied occurs (subjectContains (rule_match rule))
                  (Js.or_else (email_subject email) "").

(** [rule] is the first rule of [rules], in declared order, that matches. *)
Definition first_match (occurs : string -> string -> Prop)
    (email : Email) (rules : list Rule) (rule : Rule) : Prop :=
  exists before after,
    rules = before ++ rule :: after /\
    fully_matches occurs email rule /\
    forall earlier, In earlier before -> ~ fully_matches occurs email earlier.

(** Text in which every character is an ASCII character. *)
Fixpoint all_ascii (s : string) : bool :=
  match s with
  | EmptyString => true
  | String c s' => (nat_of_ascii c <? 128) && all_ascii s'
  end.

(** A message whose [to] and [subject] are ASCII text. *)
Definition ascii_email (email : Email) : bool :=
  all_ascii (Js.or_else (email_to email) "") &&
  all_ascii (Js.or_else (email_subject email) "").

Definition ascii_keywords (declared : option (list string)) : bool :=
  match declared with
  | Some keywords => forallb all_ascii keywords
  | None => true
  end.

(** A rule whose keywords are ASCII text. *)
Definition ascii_rule (rule : Rule) : bool :=
  ascii_keywords (toContains (rule_match rule)) &&
  ascii_keywords (subjectContains (rule_match rule)).

(** A Greek capital sigma, U+03A3, in UTF-8. *)
Definition capital_sigma : string :=
  String (ascii_of_nat 206) (String (ascii_of_nat 163) EmptyString).

(** A rule that asks for a subject with the keyword A-sigma, and a
    message whose subject is A-sigma-B. *)
Definition sigma_rule : Rule :=
  {| rule_name := "sigma";
     rule_match :=
       {| toContains := None;
          subjectContains := Some [("A" ++ capital_sigma)%string] |};
     rule_action := {| action_template := None;
                       action_priority := None;
                       action_tags := None |} |}.

Definition sigma_message : Email :=
  {| email_from := SenderString "ann@b.com";
     email_to := Some "info@example.com";
     email_subject := Some ("A" ++ capital_sigma ++ "B")%string;
     email_body := None; email_text := None; email_html := None |}.

(* ===================================================================== *)
(** ** Conditions on the ticketing system                                *)
(* ===================================================================== *)

(** The customer search is answered, and an answer with a 2xx status
    is JSON. *)
Definition search_answered (r : Response (list Customer)) : bool :=
  match r with
  | NoResponse _ => false
  | Http status (NotJson _) => negb (status_ok status)
  | Http _ _ => true
  end.

(** The creation of a customer is answered with a 2xx status and a
    customer record. *)
Definition customer_granted (r : Response Customer) : bool :=
  match r with
  | Http status (JsonValue _) => status_ok status
  | _ => false
  end.

(* ===================================================================== *)
(** ** Notions used to state further properties                          *)
(* ===================================================================== *)

Definition is_forward (r : Request) : bool :=
  match r with Forward _ => true | _ => false end.

(** Requests addressed to the ticketing system. *)
Definition is_api (r : Request) : bool := negb (is_forward r).

(** [c] occurs in [s]. *)
Fixpoint has_char (c : ascii) (s : string) : bool :=
  match s with
  | EmptyString => false
  | String c' s' => Ascii.eqb c' c || has_char c s'
  end.

(** The first character of [s] is white space. *)
Definition starts_with_space (s : string) : bool :=
  match s with
  | String c _ => Js.is_space c
  | EmptyString => false
  end.

(** The last character of [s] is white space. *)
Fixpoint ends_with_space (s : string) : bool :=
  match s with
  | EmptyString => false
  | String c EmptyString => Js.is_space c
  | String _ s' => ends_with_space s'
  end.

(* ===================================================================== *)
(** ** Further scenarios                                                 *)
(* ===================================================================== *)

Module Scenario.

(** A message from the customer the sample directory knows. *)
Definition bob_email : Email :=
  {| email_from := SenderString "bob@example.com";
     email_to := Some "support@example.com";
     email_subject := None;
     email_body := None;
     email_text := Some "help";
     email_html := None |}.

Definition bob_parsed : Worker.Parsed :=
  {| Worker.from := "bob@example.com";
     Worker.to := "support@example.com";
     Worker.subject := None;
     Worker.text := Some "help";
     Worker.html := None;
     Worker.headers := [];
     Worker.rawEmail := "raw" |}.

(** A message without sender. *)
Definition anonymous : Email :=
  {| email_from := SenderMissing;
     email_to := Some "support@example.com";
     email_subject := Some "hello";
     email_body := None; email_text := None; email_html := None |}.

(** Bindings without a forwarding destination. *)
Definition no_forward : Worker.Env :=
  {| Worker.ZAMMAD_URL := None;
     Worker.ZAMMAD_API_TOKEN := Some "secret";
     Worker.FORWARD_TO := None |}.

(** Bindings without an API token. *)
Definition no_token : Worker.Env :=
  {| Worker.ZAMMAD_URL := None;
     Worker.ZAMMAD_API_TOKEN := None;
     Worker.FORWARD_TO := Some "me@home.example" |}.

(** A ticketing system that knows nobody, and answers each endpoint
    with a fixed status: every creation of a customer gives [c]. *)
Definition scripted (search_status user_status : Z) (c : Customer)
  : Upstream unit :=
  {| on_search := fun _ _ u => (Http search_status (JsonValue []), u);
     on_create_user := fun _ _ _ u => (Http user_status (JsonValue c), u);
     on_create_ticket := fun _ data u =>
       (Http 201 (JsonValue {| ticket_id := Some 1%Z;
                               ticket_title := td_title data |}), u);
     on_forward := fun _ u => (None, u) |}.

End Scenario.

(* ===================================================================== *)
(** ** Running the calls                                                 *)
(* ===================================================================== *)

(** Unfolds a call down to the answers of the upstream. *)
Ltac unfold_calls :=
  cbv beta iota zeta delta
    [ZammadIntegration.createTicket ZammadIntegration.findOrCreateCustomer
     Worker.email Worker.createZammadTicket Worker.findOrCreateCustomer
     Worker.parseEmail deliveries
     try_catch bind axios fetch json forward call_search call_create_user
     call_create_ticket exchange settle ret throw start upstream trace
     fst snd] in *.

(** Splits on the innermost value a [match] waits for. *)
Ltac split_answer :=
  match goal with
  | |- context [match ?x with _ => _ end] =>
      lazymatch x with
      | context [match _ with _ => _ end] => fail
      | _ => destruct x eqn:?; simpl
      end
  end.

Ltac run_calls := unfold_calls; repeat split_answer.

(** Uses what is known of the ticket endpoint at the answer just met. *)
Ltac use_ticket_answer H :=
  match goal with
  | Heq : on_create_ticket _ ?b ?t ?u = _ |- _ =>
      let H' := fresh "Hanswer" in
      pose proof (H b t u) as H'; rewrite Heq in H'; simpl in H'
  end.

(** Uses what is known of the other endpoints at the answer just met. *)
Ltac use_user_answer H :=
  match goal with
  | Heq : on_create_user _ ?b ?d ?r ?u = _ |- _ =>
      let H' := fresh "Hanswer" in
      pose proof (H b d r u) as H'; rewrite Heq in H'; simpl in H'
  end.

Ltac use_search_answer H :=
  match goal with
  | Heq : on_search _ ?b ?a ?u = _ |- _ =>
      let H' := fresh "Hanswer" in
      pose proof (H b a u) as H'; rewrite Heq in H'; simpl in H'
  end.

(** Closes a case in which a transport known to work has failed. *)
Ltac forward_worked H :=
  match goal with
  | Heq : on_forward _ ?d ?u = (Some _, _) |- _ =>
      let H' := fresh "Hanswer" in
      pose proof (H d u) as H'; rewrite Heq in H'; discriminate H'
  end.

(** Closes the goal that a failed attempt to forward comes last. *)
Ltac failed_forward_last Hf :=
  rewrite Hf;
  split; [reflexivity | split; [unfold count; simpl; lia | reflexivity]].

(** Finds which request of a computed trace a membership speaks of. *)
Ltac pick_request H :=
  simpl in H;
  repeat (destruct H as [H|H]; try discriminate H);
  try contradiction.

(** Closes a case in which a status is known to be 2xx and not to be. *)
Ltac status_clash :=
  match goal with
  | Hok : status_ok ?s = true, Hno : context [status_ok ?s] |- _ =>
      lazymatch Hno with
      | Hok => fail
      | _ => rewrite Hok in Hno; simpl in Hno; discriminate Hno
      end
  end.

(** Closes a case in which a 2xx answer is known to be JSON and is not. *)
Ltac json_clash :=
  match goal with
  | Hj : status_ok ?s = true -> _, Hk : status_ok ?s = true |- _ =>
      exact (False_ind _ (Hj Hk _ eq_refl))
  end.

(** Closes a case in which an answer has a shape that what is known of
    the upstream excludes; [inv] gives the shapes it allows. *)
Ltac excluded_answer inv H :=
  cbv beta iota in H; apply inv in H;
  destruct H as (? & ? & H & ?);
  first [ discriminate H
        | injection H as ? ?; subst; first [status_clash | json_clash] ].

(** Two equations for the same answer must agree. *)
Ltac agree_answers :=
  repeat match goal with
         | H : (_, _) = (_, _) |- _ => inversion H; clear H; subst
         end;
  try (exfalso; congruence).

(* ===================================================================== *)
(** ** Properties of the string primitives                               *)
(* ===================================================================== *)

Lemma startsWith_spec (s k : string) :
  Js.startsWith s k = true <-> exists post, s = (k ++ post)%string.
Proof.
  revert s; induction k as [|ck k IH]; intros s; simpl.
  - split; [intros _; now exists s | reflexivity].
  - destruct s as [|cs s].
    + split; [discriminate | intros [post H]; discriminate].
    + rewrite andb_true_iff, Ascii.eqb_eq, IH. split.
      * intros [-> [post ->]]. now exists post.
      * intros [post H]. injection H as -> ->. split; [reflexivity|now exists post].
Qed.

Lemma includes_spec (s k : string) :
  Js.includes s k = true <-> exists pre post, s = (pre ++ k ++ post)%string.
Proof.
  induction s as [|c s IH]; simpl; rewrite orb_true_iff, startsWith_spec.
  - split.
    + intros [[post H]|H]; [|discriminate]. now exists EmptyString, post.
    + intros [pre [post H]]. left.
      destruct pre; [now exists post | discriminate].
  - rewrite IH. split.
    + intros [[post H]|[pre [post H]]].
      * now exists EmptyString, post.
      * exists (String c pre), post. simpl. now rewrite H.
    + intros [pre [post H]]. destruct pre as [|c' pre].
      * left. now exists post.
      * right. injection H as _ H. now exists pre, post.
Qed.

Lemma lower_ascii_app (a b : string) :
  Js.lower_ascii (a ++ b) = (Js.lower_ascii a ++ Js.lower_ascii b)%string.
Proof. induction a as [|c a IH]; simpl; [reflexivity | now rewrite IH]. Qed.

Lemma lower_ascii_split (s a b : string) :
  Js.lower_ascii s = (a ++ b)%string ->
  exists s1 s2, s = (s1 ++ s2)%string /\
                Js.lower_ascii s1 = a /\ Js.lower_ascii s2 = b.
Proof.
  revert s; induction a as [|c a IH]; intros s H; simpl in H.
  - exists EmptyString, s. auto.
  - destruct s as [|cs s]; simpl in H; [discriminate|].
    injection H as Hc H. destruct (IH _ H) as (s1 & s2 & -> & <- & <-).
    exists (String cs s1), s2. simpl. now rewrite Hc.
Qed.

(** An ASCII character does not begin a sigma. *)
Lemma ascii_not_sigma (c c2 : ascii) :
  (nat_of_ascii c <? 128) = true ->
  Js.is_capital_sigma c c2 = false /\ Js.is_small_sigma c c2 = false.
Proof.
  intros H. apply Nat.ltb_lt in H.
  unfold Js.is_capital_sigma, Js.is_small_sigma.
  assert (H1 : (nat_of_ascii c =? 206) = false) by (apply Nat.eqb_neq; lia).
  assert (H2 : (nat_of_ascii c =? 207) = false) by (apply Nat.eqb_neq; lia).
  now rewrite H1, H2.
Qed.

(** Nor does it begin a character of the Latin-1 supplement. *)
Lemma ascii_not_latin1 (c c2 : ascii) :
  (nat_of_ascii c <? 128) = true -> Js.is_latin1 c c2 = false.
Proof.
  intros H. apply Nat.ltb_lt in H. unfold Js.is_latin1.
  assert (H1 : (nat_of_ascii c =? 194) = false) by (apply Nat.eqb_neq; lia).
  assert (H2 : (nat_of_ascii c =? 195) = false) by (apply Nat.eqb_neq; lia).
  now rewrite H1, H2.
Qed.

(** On ASCII text the builtin is the folding of the ASCII letters. *)
Lemma lower_from_ascii (s : string) :
  forall after_cased,
    all_ascii s = true -> Js.lower_from after_cased s = Js.lower_ascii s.
Proof.
  induction s as [|c s IH]; intros after_cased H; [reflexivity|].
  simpl in H. apply andb_true_iff in H as [Hc Hs].
  destruct s as [|c2 s]; [reflexivity|].
  destruct (ascii_not_sigma c c2 Hc) as [H1 H2].
  pose proof (ascii_not_latin1 c c2 Hc) as H3.
  change (Js.lower_from after_cased (String c (String c2 s)))
    with (if Js.is_capital_sigma c c2 then
            String (ascii_of_nat 207)
              (String (ascii_of_nat
                         (if after_cased && negb (Js.cased_follows s)
                          then 130 else 131))
                 (Js.lower_from true s))
          else if Js.is_small_sigma c c2 then
            String c (String c2 (Js.lower_from true s))
          else if Js.is_latin1 c c2 then
            String c
              (String (Js.lower_latin1 c c2)
                 (Js.lower_from (Js.after_latin1 after_cased c c2) s))
          else String (Js.lower_char c)
                 (Js.lower_from (Js.after_char after_cased c)
                                (String c2 s))).
  rewrite H1, H2, H3, (IH _ Hs). reflexivity.
Qed.

Lemma toLowerCase_ascii (s : string) :
  all_ascii s = true -> Js.toLowerCase s = Js.lower_ascii s.
Proof. apply lower_from_ascii. Qed.

(** The capital letters of the Latin-1 supplement are folded as well:
    an address whose local part is CAFE with an acute accent on the E,
    the bytes 195 and 137, gets the small letter, the bytes 195 and
    169. *)
Example toLowerCase_folds_latin1 :
  Js.toLowerCase
    ("CAF" ++ String (ascii_of_nat 195) (String (ascii_of_nat 137) "@x.com"))
  = ("caf" ++ String (ascii_of_nat 195) (String (ascii_of_nat 169) "@x.com"))
      %string.
Proof. vm_compute. reflexivity. Qed.

Lemma lower_char_code (c : ascii) :
  nat_of_ascii (Js.lower_char c)
  = if (65 <=? nat_of_ascii c) && (nat_of_ascii c <=? 90)
    then nat_of_ascii c + 32 else nat_of_ascii c.
Proof.
  unfold Js.lower_char, Js.is_upper.
  destruct ((65 <=? nat_of_ascii c) && (nat_of_ascii c <=? 90)) eqn:Hu;
    [|reflexivity].
  apply andb_true_iff in Hu as [_ Hu]. apply Nat.leb_le in Hu.
  apply nat_ascii_embedding. lia.
Qed.

Lemma ascii_code_inj (c1 c2 : ascii) :
  nat_of_ascii c1 = nat_of_ascii c2 -> c1 = c2.
Proof.
  intros H. rewrite <- (ascii_nat_embedding c1), <- (ascii_nat_embedding c2).
  now rewrite H.
Qed.

(** Folding sends two characters to the same one exactly when they are
    the same letter. *)
Lemma same_letter_spec (c1 c2 : ascii) :
  Js.lower_char c1 = Js.lower_char c2 <-> same_letter c1 c2 = true.
Proof.
  unfold same_letter.
  split.
  - intros H. apply (f_equal nat_of_ascii) in H.
    rewrite !lower_char_code in H.
    destruct (65 <=? nat_of_ascii c1) eqn:A1,
             (nat_of_ascii c1 <=? 90) eqn:B1,
             (65 <=? nat_of_ascii c2) eqn:A2,
             (nat_of_ascii c2 <=? 90) eqn:B2; simpl in *;
      repeat match goal with
             | H : (_ <=? _) = true |- _ => apply Nat.leb_le in H
             | H : (_ <=? _) = false |- _ => apply Nat.leb_gt in H
             end;
      repeat rewrite orb_true_iff; rewrite ?Nat.eqb_eq; lia.
  - intros H. apply ascii_code_inj. rewrite !lower_char_code.
    repeat rewrite orb_true_iff in H.
    repeat rewrite andb_true_iff in H.
    rewrite !Nat.eqb_eq, !Nat.leb_le in H.
    destruct (65 <=? nat_of_ascii c1) eqn:A1,
             (nat_of_ascii c1 <=? 90) eqn:B1,
             (65 <=? nat_of_ascii c2) eqn:A2,
             (nat_of_ascii c2 <=? 90) eqn:B2; simpl;
      repeat match goal with
             | H : (_ <=? _) = true |- _ => apply Nat.leb_le in H
             | H : (_ <=? _) = false |- _ => apply Nat.leb_gt in H
             end; lia.
Qed.

Lemma equal_ignoring_case_spec (a b : string) :
  Js.lower_ascii a = Js.lower_ascii b <-> equal_ignoring_case a b = true.
Proof.
  revert b; induction a as [|c1 a IH]; intros [|c2 b]; simpl;
    try (split; [reflexivity || discriminate | reflexivity || discriminate]).
  rewrite andb_true_iff, <- same_letter_spec, <- IH. split.
  - intros [= H1 H2]. now split.
  - intros [H1 H2]. now rewrite H1, H2.
Qed.

(** The test of the source is the relation [lowered_occurs]. *)
Lemma includes_lowered (field keyword : string) :
  Js.includes (Js.toLowerCase field) (Js.toLowerCase keyword) = true <->
  lowered_occurs field keyword.
Proof. apply includes_spec. Qed.

(** On ASCII text, the lower-cased keyword occurs in the lower-cased
    field exactly when the keyword occurs in the field up to the case
    of letters. *)
Lemma lowered_occurs_ascii (field keyword : string) :
  all_ascii field = true -> all_ascii keyword = true ->
  (lowered_occurs field keyword <-> occurs_ignoring_case field keyword).
Proof.
  intros Hf Hk. unfold lowered_occurs, occurs_ignoring_case.
  rewrite (toLowerCase_ascii field Hf), (toLowerCase_ascii keyword Hk).
  split.
  - intros (a & b & H).
    destruct (lower_ascii_split _ _ _ H) as (pre & rest & -> & <- & Hrest).
    destruct (lower_ascii_split _ _ _ Hrest) as (mid & post & -> & Hmid & <-).
    exists pre, mid, post. split; [reflexivity|].
    now apply equal_ignoring_case_spec.
  - intros (pre & mid & post & -> & Hmid).
    apply equal_ignoring_case_spec in Hmid.
    exists (Js.lower_ascii pre), (Js.lower_ascii post).
    now rewrite !lower_ascii_app, Hmid.
Qed.

Lemma keywords_spec (field : string) (keywords : list string) :
  existsb (fun keyword =>
             Js.includes (Js.toLowerCase field) (Js.toLowerCase keyword))
          keywords = true <->
  field_satisfied lowered_occurs (Some keywords) field.
Proof.
  simpl. rewrite existsb_exists.
  split; intros (k & Hin & H); exists k; split; trivial;
    now apply includes_lowered.
Qed.

(* ===================================================================== *)
(** ** Rule matching                                                     *)
(* ===================================================================== *)

Import ZammadIntegration.

(** The loop body computes the match relation on lower-cased text. *)
Lemma rule_test_spec (email : Email) (rule : Rule) :
  rule_test email rule = true <-> fully_matches lowered_occurs email rule.
Proof.
  unfold rule_test, fully_matches.
  destruct (toContains (rule_match rule)) as [tks|],
           (subjectContains (rule_match rule)) as [sks|]; simpl andb.
  - rewrite andb_true_iff, !keywords_spec. tauto.
  - rewrite keywords_spec. simpl. tauto.
  - rewrite keywords_spec. simpl. tauto.
  - simpl. tauto.
Qed.

Lemma rule_test_false (email : Email) (rule : Rule) :
  rule_test email rule = false <->
  ~ fully_matches lowered_occurs email rule.
Proof.
  rewrite <- rule_test_spec. destruct (rule_test email rule); split; intros H.
  - discriminate. - now contradict H. - discriminate. - reflexivity.
Qed.

Lemma findMatchingRule_some (email : Email) (rules : list Rule) (rule : Rule) :
  findMatchingRule email rules = Some rule <->
  first_match lowered_occurs email rules rule.
Proof.
  unfold first_match. induction rules as [|r rs IH]; simpl.
  - split; [discriminate|]. intros (before & after & H & _).
    destruct before; discriminate.
  - destruct (rule_test email r) eqn:Ht.
    + split.
      * intros [= <-]. exists [], rs. simpl. repeat split.
        -- now apply rule_test_spec.
        -- apply rule_test_spec in Ht. apply Ht.
        -- contradiction.
      * intros (before & after & H & Hm & Hno).
        destruct before as [|b before]; simpl in H.
        -- now injection H as <- _.
        -- injection H as <- _. exfalso. apply (Hno r); [now left|].
           now apply rule_test_spec.
    + rewrite IH. split.
      * intros (before & after & -> & Hm & Hno).
        exists (r :: before), after. repeat split; try apply Hm.
        intros e [<-|Hin]; [now apply rule_test_false | now apply Hno].
      * intros (before & after & H & Hm & Hno).
        destruct before as [|b before]; simpl in H.
        -- injection H as -> _. apply rule_test_spec in Hm. congruence.
        -- injection H as _ ->. exists before, after.
           repeat split; try apply Hm. intros e Hin. apply Hno. now right.
Qed.

Lemma findMatchingRule_none (email : Email) (rules : list Rule) :
  findMatchingRule email rules = None <->
  forall rule, In rule rules -> ~ fully_matches lowered_occurs email rule.
Proof.
  induction rules as [|r rs IH]; simpl.
  - split; [intros _ ? [] | reflexivity].
  - destruct (rule_test email r) eqn:Ht.
    + split; [discriminate|]. intros H. exfalso.
      apply (H r); [now left | now apply rule_test_spec].
    + rewrite IH. split.
      * intros H rule [<-|Hin]; [now apply rule_test_false | now apply H].
      * intros H rule Hin. apply H. now right.
Qed.

Lemma field_satisfied_ascii (declared : option (list string))
    (field : string) :
  all_ascii field = true -> ascii_keywords declared = true ->
  (field_satisfied lowered_occurs declared field <->
   field_satisfied occurs_ignoring_case declared field).
Proof.
  intros Hf Hk. destruct declared as [keywords|]; simpl; [|tauto].
  simpl in Hk. rewrite forallb_forall in Hk.
  split; intros (k & Hin & H); exists k; split; trivial;
    now apply (lowered_occurs_ascii field k Hf (Hk k Hin)).
Qed.

(** For ASCII messages and keywords the two match relations agree. *)
Lemma fully_matches_ascii (email : Email) (rule : Rule) :
  ascii_email email = true -> ascii_rule rule = true ->
  (fully_matches lowered_occurs email rule <->
   fully_matches occurs_ignoring_case email rule).
Proof.
  unfold ascii_email, ascii_rule, fully_matches.
  rewrite !andb_true_iff. intros [Hto Hsubject] [Hkt Hks].
  rewrite (field_satisfied_ascii _ _ Hto Hkt).
  rewrite (field_satisfied_ascii _ _ Hsubject Hks). tauto.
Qed.

Lemma first_match_equiv (P Q : string -> string -> Prop)
    (email : Email) (rules : list Rule) (rule : Rule) :
  (forall r, In r rules ->
             (fully_matches P email r <-> fully_matches Q email r)) ->
  first_match P email rules rule -> first_match Q email rules rule.
Proof.
  intros Heq (before & after & -> & Hm & Hno).
  exists before, after. split; [reflexivity|]. split.
  - apply Heq; [|exact Hm]. apply in_or_app. right. now left.
  - intros e Hin He. apply (Hno e Hin). apply Heq; [|exact He].
    apply in_or_app. now left.
Qed.

(** A keyword that stands in the subject as it is, letter for letter,
    is not found when a capital sigma ends the keyword and does not end
    the word in the subject: the two are lower-cased to different
    sigmas.  The rule is satisfied in the sense of the claim and
    [findMatchingRule] returns nothing. *)
Lemma keyword_in_subject_missed_at_final_sigma :
  email_subject sigma_message
  = Some ("" ++ "A" ++ capital_sigma ++ "B")%string /\
  subjectContains (rule_match sigma_rule)
  = Some [("A" ++ capital_sigma)%string] /\
  Js.toLowerCase ("A" ++ capital_sigma)
  = String "a" (String (ascii_of_nat 207)
                       (String (ascii_of_nat 130) EmptyString)) /\
  Js.toLowerCase ("A" ++ capital_sigma ++ "B")
  = String "a" (String (ascii_of_nat 207)
                       (String (ascii_of_nat 131) "b")) /\
  first_match occurs_ignoring_case sigma_message [sigma_rule] sigma_rule /\
  findMatchingRule sigma_message [sigma_rule] = None.
Proof.
  repeat split; try reflexivity.
  exists [], []. split; [reflexivity|]. split; [|intros e []].
  split; [exact I|].
  exists ("A" ++ capital_sigma)%string. split; [now left|].
  exists "", ("A" ++ capital_sigma)%string, "B". split; reflexivity.
Qed.

(** C2, as the code has it.  For every message and every ordered rule
    list, [findMatchingRule] returns the first rule in declared order
    for which every match field the rule declares is satisfied (AND
    across the declared fields, OR across the keywords of a field),
    also when a later rule matches too, and nothing exactly when no
    rule matches; a keyword satisfies a field when the lower-cased
    keyword occurs in the lower-cased [to] or [subject].  For messages
    and keywords in ASCII that is substring matching up to the case of
    letters. *)
Theorem findMatchingRule_first_lowered_match
    (email : Email) (rules : list Rule) :
  ((forall rule,
      findMatchingRule email rules = Some rule <->
      first_match lowered_occurs email rules rule) /\
   (findMatchingRule email rules = None <->
    forall rule, In rule rules ->
                 ~ fully_matches lowered_occurs email rule)) /\
  (ascii_email email = true ->
   (forall rule, In rule rules -> ascii_rule rule = true) ->
   (forall rule,
      findMatchingRule email rules = Some rule <->
      first_match occurs_ignoring_case email rules rule) /\
   (findMatchingRule email rules = None <->
    forall rule, In rule rules ->
                 ~ fully_matches occurs_ignoring_case email rule)).
Proof.
  split; [split|].
  - intros rule. apply findMatchingRule_some.
  - apply findMatchingRule_none.
  - intros Hemail Hrules.
    assert (Heq : forall r, In r rules ->
                    (fully_matches lowered_occurs email r <->
                     fully_matches occurs_ignoring_case email r)).
    { intros r Hin. apply fully_matches_ascii; auto. }
    split.
    + intros rule. rewrite findMatchingRule_some. split.
      * apply first_match_equiv. exact Heq.
      * apply first_match_equiv. intros r Hin. symmetry. now apply Heq.
    + rewrite findMatchingRule_none. split; intros H rule Hin Hm.
      * apply (H rule Hin). now apply Heq.
      * apply (H rule Hin). now apply Heq.
Qed.

Lemma findMatchingRule_first_lowered_match_witness :
  ascii_email Sample.email = true /\
  ascii_rule Sample.sales_rule = true /\
  first_match occurs_ignoring_case Sample.email [Sample.sales_rule]
              Sample.sales_rule.
Proof.
  split; [reflexivity|]. split; [reflexivity|].
  apply (proj2 (findMatchingRule_first_lowered_match
                  Sample.email [Sample.sales_rule])).
  - reflexivity.
  - intros rule [<-|[]]. reflexivity.
  - reflexivity.
Defined.

(** The example of the specification: the first of two matching rules
    is the one returned. *)
Example sales_before_quote :
  let sales := {| rule_name := "sales";
                  rule_match := {| toContains := Some ["sales"];
                                   subjectContains := None |};
                  rule_action := {| action_template := None;
                                    action_priority := None;
                                    action_tags := Some ["sales"] |} |} in
  let quote := {| rule_name := "quote";
                  rule_match := {| toContains := None;
                                   subjectContains := Some ["quote"] |};
                  rule_action := {| action_template := None;
                                    action_priority := None;
                                    action_tags := None |} |} in
  let message := {| email_from := SenderString "a@b.com";
                    email_to := Some "sales@x.com";
                    email_subject := Some "quote";
                    email_body := None; email_text := None;
                    email_html := None |} in
  findMatchingRule message [sales; quote] = Some sales /\
  rule_test message quote = true.
Proof. split; reflexivity. Qed.

(** C9.  A rule that declares neither [toContains] nor [subjectContains]
    matches every message, and when it stands first in the list
    [findMatchingRule] returns it whatever the message is. *)
Theorem findMatchingRule_undeclared_rule_first
    (email : Email) (rule : Rule) (rest : list Rule) :
  toContains (rule_match rule) = None ->
  subjectContains (rule_match rule) = None ->
  rule_test email rule = true /\
  findMatchingRule email (rule :: rest) = Some rule.
Proof.
  intros Hto Hsubject.
  assert (Ht : rule_test email rule = true).
  { unfold rule_test. now rewrite Hto, Hsubject. }
  split; [exact Ht|]. simpl. now rewrite Ht.
Qed.

Lemma findMatchingRule_undeclared_rule_first_witness :
  let catch_all := {| rule_name := "everything";
                      rule_match := {| toContains := None;
                                       subjectContains := None |};
                      rule_action := {| action_template := None;
                                        action_priority := None;
                                        action_tags := Some ["inbox"] |} |} in
  let message := {| email_from := SenderString "a@b.com";
                    email_to := Some "billing@x.com";
                    email_subject := None;
                    email_body := None; email_text := Some "hello";
                    email_html := None |} in
  rule_test message catch_all = true /\
  findMatchingRule message [catch_all] = Some catch_all.
Proof.
  intros catch_all message.
  apply (findMatchingRule_undeclared_rule_first message catch_all []);
    reflexivity.
Defined.

(* ===================================================================== *)
(** ** The rule list is only read                                        *)
(* ===================================================================== *)

(** [some] with a callback that only computes leaves the store alone. *)
Lemma st_some_pure {A : Type} (f : A -> bool) (xs : list A) (st : Store) :
  st_some xs (fun x => st_ret (f x)) st = (existsb f xs, st).
Proof.
  induction xs as [|x xs IH]; [reflexivity|].
  simpl. unfold st_bind, st_ret at 1. simpl.
  destruct (f x); [reflexivity | exact IH].
Qed.

Lemma match_block_reads (declared : option (list string))
    (field : Store -> option string) (matches : bool) (st : Store) :
  match_block declared field matches st
  = (match declared with
     | Some keywords =>
         matches &&
         existsb (fun keyword =>
                    Js.includes (Js.toLowerCase (Js.or_else (field st) ""))
                                (Js.toLowerCase keyword))
                 keywords
     | None => matches
     end, st).
Proof.
  unfold match_block. destruct declared as [keywords|]; [|reflexivity].
  unfold st_bind, st_read. destruct matches; [|reflexivity].
  apply st_some_pure.
Qed.

(** The body of the loop reads the e-mail and leaves the store alone;
    its value is the value of [matches]. *)
Lemma loop_body_reads (rule : Rule) (st : Store) :
  loop_body rule st = (rule_test (store_email st) rule, st).
Proof.
  unfold loop_body, st_bind. rewrite !match_block_reads.
  unfold rule_test.
  destruct (toContains (rule_match rule)),
           (subjectContains (rule_match rule)); reflexivity.
Qed.

(** From index [i] on, the loop on the store finds what the loop over
    the rest of the array finds, and hands the store back as it
    received it. *)
Lemma for_of_reads (st : Store) :
  forall (rest : list Rule) (i fuel : nat),
    skipn i (store_rules st) = rest ->
    List.length rest < fuel ->
    for_of loop_body fuel i st
    = (findMatchingRule (store_email st) rest, st).
Proof.
  induction rest as [|r rest IH]; intros i fuel Hskip Hfuel;
    (destruct fuel as [|fuel]; [inversion Hfuel|]); simpl;
    unfold st_bind, st_read.
  - assert (Hn : nth_error (store_rules st) i = None).
    { apply nth_error_None.
      assert (Hl := f_equal (@List.length Rule) Hskip).
      rewrite length_skipn in Hl. simpl in Hl. lia. }
    now rewrite Hn.
  - assert (Hn : nth_error (store_rules st) i = Some r).
    { assert (H0 : nth_error (skipn i (store_rules st)) 0 = Some r)
        by (rewrite Hskip; reflexivity).
      rewrite nth_error_skipn, Nat.add_0_r in H0. exact H0. }
    rewrite Hn, loop_body_reads.
    destruct (rule_test (store_email st) r); [reflexivity|].
    apply IH.
    + change (S i) with (1 + i).
      rewrite <- skipn_skipn, Hskip. reflexivity.
    + simpl in Hfuel. lia.
Qed.

(** A body that writes is seen: with [clearing_body] in the place of
    the body of the source, the same loop hands back a store without
    rules. *)
Example writing_body_changes_store :
  let st := {| store_email := Sample.email;
               store_config := Sample.domain |} in
  store_rules st = [Sample.sales_rule] /\
  store_rules (snd (for_of clearing_body 2 0 st)) = [].
Proof. split; reflexivity. Qed.

(** C8.  For every message and every stored configuration,
    [findMatchingRule] leaves the rule list and the domain configuration
    as they were: the store after the call, with the e-mail, the rules
    and the rest of the configuration in it, is the store before it, and
    the rule returned is the first that matches in that list. *)
Theorem findMatchingRule_leaves_rules_unchanged (st : Store) :
  snd (findMatchingRule_st st) = st /\
  store_rules (snd (findMatchingRule_st st)) = store_rules st /\
  store_config (snd (findMatchingRule_st st)) = store_config st /\
  fst (findMatchingRule_st st)
  = findMatchingRule (store_email st) (store_rules st).
Proof.
  unfold findMatchingRule_st.
  rewrite (for_of_reads st (store_rules st) 0);
    [simpl; auto | reflexivity | lia].
Qed.

(* ===================================================================== *)
(** ** A disabled integration                                            *)
(* ===================================================================== *)

Lemma constructor_disabled (config : Config) :
  ZAMMAD_ENABLED config = Some "false" \/
  Js.truthy (ZAMMAD_API_TOKEN config) = false ->
  enabled (constructor config) = false.
Proof.
  unfold constructor; simpl. intros [H|H]; rewrite H; simpl.
  - now destruct (Js.truthy (ZAMMAD_API_TOKEN config)).
  - now destruct (not_false (ZAMMAD_ENABLED config)).
Qed.

(** C10.  When the integration is disabled, because [ZAMMAD_ENABLED] is
    the string [false] or because no API token is configured and the
    constructor switches it off, [createTicket] returns [null] for every
    e-mail and leaves the world as it found it: no customer search, no
    customer creation, no ticket submission. *)
Theorem createTicket_disabled_is_inert
    {U : Type} (srv : Upstream U) (config : Config)
    (email : Email) (domainConfig : DomainConfig) (w : World U) :
  ZAMMAD_ENABLED config = Some "false" \/
  Js.truthy (ZAMMAD_API_TOKEN config) = false ->
  enabled (constructor config) = false /\
  createTicket srv (constructor config) email domainConfig w
    = (Returned None, w).
Proof.
  intros H. apply constructor_disabled in H. split; [exact H|].
  unfold createTicket. now rewrite H.
Qed.

Lemma createTicket_disabled_is_inert_witness :
  let srv := Reference.directory Reference.exact 201 in
  let w := start Sample.with_bob in
  (enabled (constructor Sample.switched_off) = false /\
   createTicket srv (constructor Sample.switched_off)
                Sample.email Sample.domain w = (Returned None, w)) /\
  (enabled (constructor Sample.no_token) = false /\
   createTicket srv (constructor Sample.no_token)
                Sample.email Sample.domain w = (Returned None, w)).
Proof.
  intros srv w. split.
  - apply (createTicket_disabled_is_inert srv Sample.switched_off).
    left. reflexivity.
  - apply (createTicket_disabled_is_inert srv Sample.no_token).
    right. reflexivity.
Defined.

(* ===================================================================== *)
(** ** One attempt per call                                              *)
(* ===================================================================== *)

(** With the ticket endpoint answering 503, the integration submits the
    ticket once and gives up; so does the worker. *)
Lemma unavailable_upstream_not_retried :
  let srv := Reference.directory Reference.exact 503 in
  let run := createTicket srv (constructor Sample.config)
                          Sample.email Sample.domain
                          (start Reference.empty) in
  let run' := Worker.createZammadTicket srv Sample.parsed Sample.env
                                        (start Reference.empty) in
  fst run = Thrown (HttpError 503) /\
  count is_create_ticket (trace (snd run)) = 1 /\
  fst run' = Returned None /\
  count is_create_ticket (trace (snd run')) = 1.
Proof. repeat split; reflexivity. Qed.

(** The same when the upstream does not answer in time: one search, no
    second one. *)
Example timeout_not_retried :
  let run := createTicket Reference.unreachable (constructor Sample.config)
                          Sample.email Sample.domain (start tt) in
  fst run = Thrown (NetworkError "timeout") /\
  trace (snd run) =
    [SearchUsers "https://help.vln.gg/api/v1" (Addr "ann@b.com")].
Proof. split; reflexivity. Qed.

Lemma createTicket_single_attempt
    {U : Type} (srv : Upstream U) (this : Instance)
    (email : Email) (domainConfig : DomainConfig) (u : U) :
  let requests :=
    trace (snd (createTicket srv this email domainConfig (start u))) in
  count is_search requests <= 1 /\
  count is_create_user requests <= 1 /\
  count is_create_ticket requests <= 1.
Proof. run_calls; unfold count; simpl; lia. Qed.

Lemma createZammadTicket_single_attempt
    {U : Type} (srv : Upstream U) (email : Worker.Parsed)
    (env : Worker.Env) (u : U) :
  let requests :=
    trace (snd (Worker.createZammadTicket srv email env (start u))) in
  count is_search requests <= 1 /\
  count is_create_user requests <= 1 /\
  count is_create_ticket requests <= 1.
Proof. run_calls; unfold count; simpl; lia. Qed.

(** C6, as the code has it.  No upstream call is retried.  Whatever the
    upstream answers (a 5xx, no answer in time, a 4xx, or success), one
    call of [createTicket], and one call of the worker's
    [createZammadTicket], issues at most one customer search, at most
    one customer creation and at most one ticket submission. *)
Theorem upstream_calls_never_retried
    {U : Type} (srv : Upstream U) (this : Instance)
    (email : Email) (domainConfig : DomainConfig)
    (parsed : Worker.Parsed) (env : Worker.Env) (u : U) :
  let requests :=
    trace (snd (createTicket srv this email domainConfig (start u))) in
  let requests' :=
    trace (snd (Worker.createZammadTicket srv parsed env (start u))) in
  (count is_search requests <= 1 /\
   count is_create_user requests <= 1 /\
   count is_create_ticket requests <= 1) /\
  (count is_search requests' <= 1 /\
   count is_create_user requests' <= 1 /\
   count is_create_ticket requests' <= 1).
Proof.
  split.
  - apply createTicket_single_attempt.
  - apply createZammadTicket_single_attempt.
Qed.

(* ===================================================================== *)
(** ** Failed submissions                                                *)
(* ===================================================================== *)

(** The worker swallows a failed submission: a 503 and a dropped
    connection both end in [null], not in an error. *)
Lemma worker_swallows_failed_submission :
  let run := Worker.createZammadTicket
               (Reference.directory Reference.exact 503)
               Sample.parsed Sample.env (start Reference.empty) in
  let run' := Worker.createZammadTicket Reference.dropping
                Sample.parsed Sample.env (start Reference.empty) in
  (fst run = Returned None /\ count is_create_ticket (trace (snd run)) = 1) /\
  (fst run' = Returned None /\ count is_create_ticket (trace (snd run')) = 1).
Proof. repeat split; reflexivity. Qed.

Lemma createZammadTicket_never_throws
    {U : Type} (srv : Upstream U) (email : Worker.Parsed)
    (env : Worker.Env) (w : World U) :
  exists ticket, fst (Worker.createZammadTicket srv email env w)
                 = Returned ticket.
Proof. run_calls; eauto. Qed.

Lemma createTicket_rethrows
    {U : Type} (srv : Upstream U) (this : Instance)
    (email : Email) (domainConfig : DomainConfig) (u : U) (err : Error) :
  (forall base data u',
     failure_error (fst (on_create_ticket srv base data u')) = Some err) ->
  enabled this = true ->
  let run := createTicket srv this email domainConfig (start u) in
  exists e, fst run = Thrown e /\
            (count is_create_ticket (trace (snd run)) = 1 -> e = err).
Proof.
  intros Hfail Hon. unfold_calls. rewrite Hon. simpl negb. cbv iota.
  repeat split_answer; try use_ticket_answer Hfail;
    try match goal with H : context [status_ok ?s] |- _ =>
          destruct (status_ok s) eqn:?; try discriminate end;
    try discriminate;
    eexists; (split; [reflexivity|]); unfold count; simpl;
    try discriminate; intros _; congruence.
Qed.

Lemma createZammadTicket_returns_null
    {U : Type} (srv : Upstream U) (email : Worker.Parsed)
    (env : Worker.Env) (u : U) (err : Error) :
  (forall base data u',
     failure_error (fst (on_create_ticket srv base data u')) = Some err) ->
  fst (Worker.createZammadTicket srv email env (start u)) = Returned None.
Proof.
  intros Hfail. unfold_calls.
  repeat split_answer; try use_ticket_answer Hfail;
    try match goal with H : context [status_ok ?s] |- _ =>
          destruct (status_ok s) eqn:?; try discriminate end;
    try discriminate; try reflexivity; simpl in *; congruence.
Qed.

(** C5, as the code has it.  When the ticket endpoint fails (no
    response, or a status outside 2xx), [createTicket] of the
    integration returns no value: it rejects, and once the submission
    has been made the error is the one of the HTTP client, unchanged,
    carrying the upstream message or status.  The worker's
    [createZammadTicket] does not reject: it returns [null]. *)
Theorem failed_submission_rethrown_or_null
    {U : Type} (srv : Upstream U) (this : Instance)
    (email : Email) (domainConfig : DomainConfig)
    (parsed : Worker.Parsed) (env : Worker.Env) (u : U) (err : Error) :
  (forall base data u',
     failure_error (fst (on_create_ticket srv base data u')) = Some err) ->
  enabled this = true ->
  let run := createTicket srv this email domainConfig (start u) in
  let run' := Worker.createZammadTicket srv parsed env (start u) in
  (exists e, fst run = Thrown e /\
             (count is_create_ticket (trace (snd run)) = 1 -> e = err)) /\
  fst run' = Returned None.
Proof.
  intros Hfail Hon. split.
  - now apply createTicket_rethrows.
  - now apply createZammadTicket_returns_null with (err := err).
Qed.

Lemma failed_submission_rethrown_or_null_witness :
  let srv := Reference.directory Reference.exact 503 in
  let run := createTicket srv (constructor Sample.config)
               Sample.email Sample.domain (start Reference.empty) in
  let run' := Worker.createZammadTicket srv Sample.parsed Sample.env
                (start Reference.empty) in
  (exists e, fst run = Thrown e /\
             (count is_create_ticket (trace (snd run)) = 1 ->
              e = HttpError 503)) /\
  fst run' = Returned None.
Proof.
  intros srv.
  apply (failed_submission_rethrown_or_null srv (constructor Sample.config)
           Sample.email Sample.domain Sample.parsed Sample.env
           Reference.empty (HttpError 503)).
  - intros base data u'. reflexivity.
  - reflexivity.
Defined.

(* ===================================================================== *)
(** ** Search before create                                              *)
(* ===================================================================== *)

(** A full-text search answers a query with a customer whose address is
    another one, and both implementations return that customer. *)
Lemma found_customer_has_other_email :
  let srv := Reference.directory Reference.fulltext 201 in
  let run := findOrCreateCustomer srv (constructor Sample.config)
               Sample.rob (start Sample.with_bob) in
  let run' := Worker.findOrCreateCustomer srv "https://help.vln.gg"
                Sample.rob (start Sample.with_bob) in
  fst run = Returned (JsonValue Sample.bob) /\
  fst run' = Returned (Some Sample.bob) /\
  Addr (customer_email Sample.bob) <> cd_email Sample.rob.
Proof. repeat split; try reflexivity. discriminate. Qed.

Lemma findOrCreateCustomer_search_first
    {U : Type} (srv : Upstream U) (this : Instance)
    (customerData : CustomerData) (u : U) :
  let base := client_base this in
  let answer := fst (on_search srv base (cd_email customerData) u) in
  let run := findOrCreateCustomer srv this customerData (start u) in
  exists rest,
    trace (snd run) = SearchUsers base (cd_email customerData) :: rest /\
    (rest = [] \/ rest = [CreateUser base customerData ["Customer"]]) /\
    (forall c, first_result answer = Some c ->
               rest = [] /\ fst run = Returned (JsonValue c)) /\
    (rest <> [] -> first_result answer = None).
Proof.
  unfold_calls. unfold first_result.
  repeat split_answer; eexists; (split; [reflexivity|]);
    repeat split; auto; try congruence;
    try (intros c' [= <-]; split; reflexivity);
    try (intros c' [= <-]; split; congruence).
Qed.

Lemma worker_findOrCreateCustomer_search_first
    {U : Type} (srv : Upstream U) (baseUrl : string)
    (customerData : CustomerData) (u : U) :
  let base := (baseUrl ++ "/api/v1")%string in
  let answer := fst (on_search srv base (cd_email customerData) u) in
  let run := Worker.findOrCreateCustomer srv baseUrl customerData (start u) in
  exists rest,
    trace (snd run) = SearchUsers base (cd_email customerData) :: rest /\
    (rest = [] \/ rest = [CreateUser base customerData ["Customer"]]) /\
    (forall c, first_result answer = Some c ->
               rest = [] /\ fst run = Returned (Some c)) /\
    (rest <> [] -> first_result answer = None).
Proof.
  unfold_calls. unfold first_result.
  repeat split_answer; eexists; (split; [reflexivity|]);
    repeat split; auto; try congruence;
    try (intros c' [= <-]; split; reflexivity);
    try (intros c' [= <-]; split; congruence).
Qed.

(** C3, as the code has it.  For every e-mail address,
    [findOrCreateCustomer] first searches the external directory, and a
    customer-creation request follows only when the search gave no
    customer; when the search answers with customers, the first of them
    is returned as the directory sent it and nothing is created.  Which
    customers answer a query is decided by the directory: the address of
    the one returned is not compared with the address searched for. *)
Theorem findOrCreateCustomer_searches_before_create
    {U : Type} (srv : Upstream U) (this : Instance) (baseUrl : string)
    (customerData : CustomerData) (u : U) :
  (let base := client_base this in
   let answer := fst (on_search srv base (cd_email customerData) u) in
   let run := findOrCreateCustomer srv this customerData (start u) in
   exists rest,
     trace (snd run) = SearchUsers base (cd_email customerData) :: rest /\
     (rest = [] \/ rest = [CreateUser base customerData ["Customer"]]) /\
     (forall c, first_result answer = Some c ->
                rest = [] /\ fst run = Returned (JsonValue c)) /\
     (rest <> [] -> first_result answer = None)) /\
  (let base := (baseUrl ++ "/api/v1")%string in
   let answer := fst (on_search srv base (cd_email customerData) u) in
   let run :=
     Worker.findOrCreateCustomer srv baseUrl customerData (start u) in
   exists rest,
     trace (snd run) = SearchUsers base (cd_email customerData) :: rest /\
     (rest = [] \/ rest = [CreateUser base customerData ["Customer"]]) /\
     (forall c, first_result answer = Some c ->
                rest = [] /\ fst run = Returned (Some c)) /\
     (rest <> [] -> first_result answer = None)).
Proof.
  split.
  - apply findOrCreateCustomer_search_first.
  - apply worker_findOrCreateCustomer_search_first.
Qed.

(* ===================================================================== *)
(** ** The ticket payload                                                *)
(* ===================================================================== *)

(** A message with both bodies is submitted by the worker with the text
    body flagged as HTML, and the priority of the matched rule does not
    reach the payload of the integration. *)
Lemma payload_flag_and_priority_differ :
  let srv := Reference.directory Reference.exact 201 in
  let sent := Reference.tickets (upstream (snd
                (Worker.createZammadTicket srv Sample.parsed Sample.env
                                           (start Reference.empty)))) in
  let sent' := Reference.tickets (upstream (snd
                 (createTicket srv (constructor Sample.config) Sample.email
                               Sample.domain (start Reference.empty)))) in
  (exists t, sent = [t] /\
     article_body (td_article t) = "hello" /\
     Some (article_body (td_article t)) <> Worker.html Sample.parsed /\
     article_content_type (td_article t) = "text/html") /\
  (exists t', sent' = [t'] /\
     findMatchingRule Sample.email [Sample.sales_rule]
       = Some Sample.sales_rule /\
     action_priority (rule_action Sample.sales_rule) = Some "high" /\
     td_priority t' = "2 normal" /\
     article_body (td_article t') = "hello" /\
     article_content_type (td_article t') = "text/html").
Proof.
  split; eexists; repeat split; try reflexivity. discriminate.
Qed.

Lemma createTicket_payload
    {U : Type} (srv : Upstream U) (this : Instance)
    (email : Email) (domainConfig : DomainConfig) (u : U)
    (base : string) (t : TicketData) :
  In (CreateTicket base t)
     (trace (snd (createTicket srv this email domainConfig (start u)))) ->
  exists customerEmail customer_id,
    t = ticketData_of email domainConfig customerEmail customer_id.
Proof.
  run_calls; intros Hin; simpl in Hin;
    repeat (destruct Hin as [Hin|Hin]; try discriminate);
    try contradiction; injection Hin as _ <-; eauto.
Qed.

Lemma createZammadTicket_payload
    {U : Type} (srv : Upstream U) (email : Worker.Parsed)
    (env : Worker.Env) (u : U) (base : string) (t : TicketData) :
  In (CreateTicket base t)
     (trace (snd (Worker.createZammadTicket srv email env (start u)))) ->
  exists customer_id,
    t = Worker.ticketData_of email (Worker.from email) customer_id.
Proof.
  run_calls; intros Hin; simpl in Hin;
    repeat (destruct Hin as [Hin|Hin]; try discriminate);
    try contradiction; injection Hin as _ <-; eauto.
Qed.

Lemma or_else_truthy (v : option string) (d : string) :
  Js.truthy v = true -> Some (Js.or_else v d) = v.
Proof. destruct v as [[|c s]|]; simpl; congruence. Qed.

Lemma or_else_falsy (v : option string) (d : string) :
  Js.truthy v = false -> Js.or_else v d = d.
Proof. destruct v as [[|c s]|]; simpl; congruence. Qed.

(** C4, as the code has it.  Every ticket payload submitted by
    [createTicket] of the integration has: the subject as title, or
    [(No Subject)] when the subject is missing or empty; state [new];
    as article body [email.body], else [email.text], else the empty
    string, flagged [text/plain] when the e-mail has no HTML body; the
    priority of the domain's [zammad] settings, or [2 normal] when there
    is none; and as tags those of the first matching rule joined by
    commas, or no tags when no rule matches or the rule has none.
    Every payload submitted by the worker has the same title and state;
    as article body the text body, else the HTML body, else the empty
    string, flagged [text/plain] when there is no HTML body and
    [text/html] when the HTML body is the one placed; priority
    [2 normal]; and no tags. *)
Theorem ticket_payload_fields
    {U : Type} (srv : Upstream U) (this : Instance)
    (email : Email) (domainConfig : DomainConfig)
    (parsed : Worker.Parsed) (env : Worker.Env) (u : U) :
  (forall base t,
     In (CreateTicket base t)
        (trace (snd (createTicket srv this email domainConfig (start u)))) ->
     (Js.truthy (email_subject email) = true ->
      Some (td_title t) = email_subject email) /\
     (Js.truthy (email_subject email) = false ->
      td_title t = "(No Subject)") /\
     td_state t = "new" /\
     (Js.truthy (email_body email) = true ->
      Some (article_body (td_article t)) = email_body email) /\
     (Js.truthy (email_body email) = false ->
      Js.truthy (email_text email) = true ->
      Some (article_body (td_article t)) = email_text email) /\
     (Js.truthy (email_body email) = false ->
      Js.truthy (email_text email) = false ->
      article_body (td_article t) = "") /\
     (Js.truthy (email_html email) = false ->
      article_content_type (td_article t) = "text/plain") /\
     (forall z, dc_zammad domainConfig = Some z ->
                Js.truthy (zc_priority z) = true ->
                Some (td_priority t) = zc_priority z) /\
     (forall z, dc_zammad domainConfig = Some z ->
                Js.truthy (zc_priority z) = false ->
                td_priority t = "2 normal") /\
     (dc_zammad domainConfig = None -> td_priority t = "2 normal") /\
     (forall rules rule,
        dc_rules domainConfig = Some rules ->
        findMatchingRule email rules = Some rule ->
        td_tags t =
          option_map (Js.join ",") (action_tags (rule_action rule))) /\
     (forall rules,
        dc_rules domainConfig = Some rules ->
        findMatchingRule email rules = None -> td_tags t = None) /\
     (dc_rules domainConfig = None -> td_tags t = None)) /\
  (forall base t,
     In (CreateTicket base t)
        (trace (snd (Worker.createZammadTicket srv parsed env (start u)))) ->
     (Js.truthy (Worker.subject parsed) = true ->
      Some (td_title t) = Worker.subject parsed) /\
     (Js.truthy (Worker.subject parsed) = false ->
      td_title t = "(No Subject)") /\
     td_state t = "new" /\
     (Js.truthy (Worker.text parsed) = true ->
      Some (article_body (td_article t)) = Worker.text parsed) /\
     (Js.truthy (Worker.text parsed) = false ->
      Js.truthy (Worker.html parsed) = true ->
      Some (article_body (td_article t)) = Worker.html parsed /\
      article_content_type (td_article t) = "text/html") /\
     (Js.truthy (Worker.html parsed) = false ->
      article_content_type (td_article t) = "text/plain") /\
     (Js.truthy (Worker.text parsed) = false ->
      Js.truthy (Worker.html parsed) = false ->
      article_body (td_article t) = "") /\
     td_priority t = "2 normal" /\
     td_tags t = None).
Proof.
  split; intros base t Hin.
  - apply createTicket_payload in Hin. destruct Hin as (a & cid & ->).
    unfold ticketData_of, priority_of, tags_of, Js.or_opt.
    cbn [td_title td_state td_article td_priority td_tags article_body
         article_content_type].
    repeat match goal with |- _ /\ _ => split end; try reflexivity.
    + apply or_else_truthy.
    + apply or_else_falsy.
    + intros Hb. rewrite Hb. now apply or_else_truthy.
    + intros Hb Ht. rewrite Hb. now apply or_else_truthy.
    + intros Hb Ht. rewrite Hb. now apply or_else_falsy.
    + intros Hh. now rewrite Hh.
    + intros z -> Hp. now apply or_else_truthy.
    + intros z -> Hp. now apply or_else_falsy.
    + intros ->. reflexivity.
    + intros rules rule -> Hr. destruct rules as [|r rs]; [discriminate|].
      rewrite Hr. now destruct (action_tags (rule_action rule)).
    + intros rules -> Hr. destruct rules as [|r rs]; [reflexivity|].
      now rewrite Hr.
    + intros ->. reflexivity.
  - apply createZammadTicket_payload in Hin. destruct Hin as (cid & ->).
    unfold Worker.ticketData_of, Js.or_opt.
    cbn [td_title td_state td_article td_priority td_tags article_body
         article_content_type].
    repeat match goal with |- _ /\ _ => split end; try reflexivity.
    + apply or_else_truthy.
    + apply or_else_falsy.
    + intros Ht. rewrite Ht. now apply or_else_truthy.
    + intros Ht Hh. rewrite Ht, Hh. split; [now apply or_else_truthy|].
      reflexivity.
    + intros Hh. now rewrite Hh.
    + intros Ht Hh. rewrite Ht. now apply or_else_falsy.
Qed.

Lemma ticket_payload_fields_witness :
  let srv := Reference.directory Reference.exact 201 in
  (exists t,
     In (CreateTicket "https://help.vln.gg/api/v1" t)
        (trace (snd (createTicket srv (constructor Sample.config)
                       Sample.email Sample.domain
                       (start Reference.empty)))) /\
     td_state t = "new" /\ td_tags t = Some "sales,lead") /\
  (exists t,
     In (CreateTicket "https://help.vln.gg/api/v1" t)
        (trace (snd (Worker.createZammadTicket srv Sample.parsed Sample.env
                       (start Reference.empty)))) /\
     td_state t = "new" /\ td_tags t = None).
Proof.
  intros srv.
  pose proof (ticket_payload_fields srv (constructor Sample.config)
                Sample.email Sample.domain Sample.parsed Sample.env
                Reference.empty) as [Hint Hwork].
  split.
  - eexists. split; [right; right; left; reflexivity|].
    match goal with
    | |- td_state ?t = _ /\ _ =>
        destruct (Hint "https://help.vln.gg/api/v1" t) as
          (_ & _ & Hstate & _ & _ & _ & _ & _ & _ & _ & Htags & _);
        [right; right; left; reflexivity|]
    end.
    split; [exact Hstate|]. exact (Htags _ _ eq_refl eq_refl).
  - eexists. split; [right; right; left; reflexivity|].
    match goal with
    | |- td_state ?t = _ /\ _ =>
        destruct (Hwork "https://help.vln.gg/api/v1" t) as
          (_ & _ & Hstate & _ & _ & _ & _ & _ & Htags);
        [right; right; left; reflexivity|]
    end.
    split; [exact Hstate | exact Htags].
Defined.

(* ===================================================================== *)
(** ** Forwarding                                                        *)
(* ===================================================================== *)

(** Ticket creation does not look at how forwarding behaves. *)
Lemma ticket_phase_ignores_forward
    {U : Type} (srv : Upstream U) (f : string -> U -> option Error * U)
    (message : Worker.Message) (env : Worker.Env) (w : World U) :
  ticket_phase (with_forward f srv) message env w
  = ticket_phase srv message env w.
Proof. reflexivity. Qed.

(** The entry point is the ticket phase followed by one attempt to
    forward, and a second one when the first fails. *)
Lemma email_forwards_after_ticket_phase
    {U : Type} (srv : Upstream U) (message : Worker.Message)
    (env : Worker.Env) (u : U) (dest : string) :
  Worker.FORWARD_TO env = Some dest ->
  dest <> "" ->
  exists again,
    trace (snd (Worker.email srv message env (start u)))
    = trace (snd (ticket_phase srv message env (start u)))
        ++ Forward dest :: again /\
    (again = [] \/ again = [Forward dest]).
Proof.
  intros Hto Hdest. unfold ticket_phase. unfold_calls. rewrite Hto.
  destruct dest as [|c dest]; [contradiction|]. simpl.
  repeat split_answer;
    (exists []; split; [reflexivity | now left]) ||
    (exists [Forward (String c dest)]; split; [reflexivity | now right]).
Qed.

(** Examples: a message that cannot be parsed, a ticket that cannot be
    created and a transport that refuses are all followed by
    forwarding. *)
Example unreadable_message_forwarded :
  trace (snd (Worker.email (Reference.directory Reference.exact 201)
                Sample.unreadable Sample.env (start Reference.empty)))
  = [Forward "me@home.example"].
Proof. reflexivity. Qed.

Example failed_ticket_then_forward_twice :
  trace (snd (Worker.email Reference.unreachable Sample.message Sample.env
                (start tt)))
  = [SearchUsers "https://help.vln.gg/api/v1" (Addr "ann@b.com");
     Forward "me@home.example"; Forward "me@home.example"].
Proof. reflexivity. Qed.

(** C7.  When a forwarding destination is configured, every inbound
    message is forwarded to it whatever the outcome of the pipeline
    (ticket created, ticket creation failed, or the message could not be
    parsed): the entry point always asks the transport to forward.  A
    failed ticket creation does not prevent forwarding, and a failing
    transport does not prevent ticket creation: whatever forwarding
    does, the requests sent to the ticketing system are those of the
    entry point without forwarding, and they come first. *)
Theorem forward_regardless_of_outcome
    {U : Type} (srv : Upstream U) (message : Worker.Message)
    (env : Worker.Env) (dest : string) (u : U) :
  Worker.FORWARD_TO env = Some dest ->
  dest <> "" ->
  In (Forward dest) (trace (snd (Worker.email srv message env (start u)))) /\
  forall f : string -> U -> option Error * U,
    exists again,
      trace (snd (Worker.email (with_forward f srv) message env (start u)))
      = trace (snd (ticket_phase srv message env (start u)))
          ++ Forward dest :: again /\
      (again = [] \/ again = [Forward dest]).
Proof.
  intros Hto Hdest. split.
  - destruct (email_forwards_after_ticket_phase srv message env u dest
                Hto Hdest) as (again & Heq & _).
    rewrite Heq.
    apply in_or_app. right. now left.
  - intros f.
    rewrite <- (ticket_phase_ignores_forward srv f).
    now apply email_forwards_after_ticket_phase.
Qed.

Lemma forward_regardless_of_outcome_witness :
  let srv := Reference.unreachable in
  In (Forward "me@home.example")
     (trace (snd (Worker.email srv Sample.message Sample.env (start tt)))) /\
  forall f : string -> unit -> option Error * unit,
    exists again,
      trace (snd (Worker.email (with_forward f srv) Sample.message
                    Sample.env (start tt)))
      = trace (snd (ticket_phase srv Sample.message Sample.env (start tt)))
          ++ Forward "me@home.example" :: again /\
      (again = [] \/ again = [Forward "me@home.example"]).
Proof.
  intros srv.
  apply (forward_regardless_of_outcome srv Sample.message Sample.env
           "me@home.example" tt).
  - reflexivity.
  - discriminate.
Defined.

(* ===================================================================== *)
(** ** Repeated delivery                                                 *)
(* ===================================================================== *)

(** The same message, with the same [Message-ID], delivered twice to an
    upstream that accepts everything: two tickets. *)
Lemma redelivery_creates_second_ticket :
  let srv := Reference.directory Reference.exact 201 in
  let after := snd (deliveries srv Sample.message Sample.env
                               (start Reference.empty)) in
  Worker.headers_get "message-id" (Worker.msg_headers Sample.message)
    = Some "<m1@b.com>" /\
  List.length (Reference.tickets (upstream after)) = 2 /\
  count is_create_ticket (trace after) = 2.
Proof. repeat split; reflexivity. Qed.

(** One delivery to a directory that accepts submissions stores one
    ticket. *)
Lemma email_stores_one_ticket
    (hit : string -> Customer -> bool) (status : Z)
    (message : Worker.Message) (env : Worker.Env)
    (raw : string) (text html : option string) (w : World Reference.Directory) :
  Worker.msg_raw message = Returned raw ->
  Worker.msg_text message = Returned text ->
  Worker.msg_html message = Returned html ->
  Js.truthy (Worker.ZAMMAD_API_TOKEN env) = true ->
  status_ok status = true ->
  let run := Worker.email (Reference.directory hit status) message env w in
  fst run = Returned tt /\
  List.length (Reference.tickets (upstream (snd run)))
  = S (List.length (Reference.tickets (upstream w))).
Proof.
  intros Hraw Htext Hhtml Htoken Hok. unfold_calls.
  rewrite Hraw, Htext, Hhtml, Htoken. simpl. rewrite Hok. simpl.
  repeat split_answer; simpl; rewrite ?Hok; simpl;
    rewrite ?length_app; simpl; split; try reflexivity; try lia.
Qed.

(** Against the reference directory the tickets stored grow by two when
    a message is delivered twice. *)
Theorem each_delivery_creates_ticket
    (hit : string -> Customer -> bool) (status : Z)
    (message : Worker.Message) (env : Worker.Env)
    (raw : string) (text html : option string) (d : Reference.Directory) :
  Worker.msg_raw message = Returned raw ->
  Worker.msg_text message = Returned text ->
  Worker.msg_html message = Returned html ->
  Js.truthy (Worker.ZAMMAD_API_TOKEN env) = true ->
  status_ok status = true ->
  let after := snd (deliveries (Reference.directory hit status) message env
                               (start d)) in
  List.length (Reference.tickets (upstream after))
  = 2 + List.length (Reference.tickets d).
Proof.
  intros Hraw Htext Hhtml Htoken Hok. unfold deliveries, bind.
  pose proof (email_stores_one_ticket hit status message env raw text html
                (start d) Hraw Htext Hhtml Htoken Hok) as [Hfirst Hone].
  destruct (Worker.email (Reference.directory hit status) message env
                         (start d)) as [o w1].
  simpl in Hfirst, Hone. rewrite Hfirst.
  pose proof (email_stores_one_ticket hit status message env raw text html
                w1 Hraw Htext Hhtml Htoken Hok) as [_ Htwo].
  simpl in *. rewrite Htwo, Hone. reflexivity.
Qed.

Lemma each_delivery_creates_ticket_witness :
  let after := snd (deliveries (Reference.directory Reference.exact 201)
                               Sample.message Sample.env
                               (start Sample.with_bob)) in
  List.length (Reference.tickets (upstream after))
  = 2 + List.length (Reference.tickets Sample.with_bob).
Proof.
  apply (each_delivery_creates_ticket Reference.exact 201 Sample.message
           Sample.env "raw" (Some "hello") (Some "<p>hello</p>")
           Sample.with_bob);
    reflexivity.
Defined.

Lemma search_answered_inv (r : Response (list Customer)) :
  search_answered r = true ->
  exists status body,
    r = Http status body /\
    (status_ok status = true -> forall raw, body <> NotJson raw).
Proof.
  destruct r as [message|status body]; simpl; [discriminate|].
  intros H. exists status, body. split; [reflexivity|].
  intros Hok raw ->. rewrite Hok in H. discriminate H.
Qed.

Lemma customer_granted_inv (r : Response Customer) :
  customer_granted r = true ->
  exists status c, r = Http status (JsonValue c) /\ status_ok status = true.
Proof.
  destruct r as [message|status [raw| |c]]; simpl; try discriminate.
  intros H. now exists status, c.
Qed.

Lemma accepted_inv {B : Type} (r : Response B) :
  failure_error r = None ->
  exists status body, r = Http status body /\ status_ok status = true.
Proof.
  destruct r as [message|status body]; simpl; [discriminate|].
  destruct (status_ok status) eqn:Hok; [|discriminate].
  intros _. now exists status, body.
Qed.

Lemma count_app (p : Request -> bool) (a b : list Request) :
  count p (a ++ b) = count p a + count p b.
Proof. unfold count. now rewrite filter_app, length_app. Qed.

(** One call of [createZammadTicket], from any world: when a token is
    configured, the search is answered, customers are granted and
    submissions are accepted, one more ticket submission is in the
    trace afterwards. *)
Lemma createZammadTicket_submits_one_ticket
    {U : Type} (srv : Upstream U) (email : Worker.Parsed)
    (env : Worker.Env) (w : World U) :
  Js.truthy (Worker.ZAMMAD_API_TOKEN env) = true ->
  (forall base a u', search_answered (fst (on_search srv base a u')) = true) ->
  (forall base data roles u',
     customer_granted (fst (on_create_user srv base data roles u')) = true) ->
  (forall base data u',
     failure_error (fst (on_create_ticket srv base data u')) = None) ->
  count is_create_ticket
    (trace (snd (Worker.createZammadTicket srv email env w)))
  = S (count is_create_ticket (trace w)).
Proof.
  intros Htoken Hsearch Huser Hticket.
  destruct w as [u tr]. unfold_calls. rewrite Htoken. simpl.
  repeat split_answer;
    try solve
      [ match goal with
        | Heq : on_search _ ?b ?a ?u0 = _ |- _ =>
            pose proof (Hsearch b a u0) as Hshape; rewrite Heq in Hshape;
            excluded_answer search_answered_inv Hshape
        end ];
    try solve
      [ match goal with
        | Heq : on_create_user _ ?b ?d ?r ?u0 = _ |- _ =>
            pose proof (Huser b d r u0) as Hshape; rewrite Heq in Hshape;
            excluded_answer customer_granted_inv Hshape
        end ];
    try solve
      [ match goal with
        | Heq : on_create_ticket _ ?b ?t ?u0 = _ |- _ =>
            pose proof (Hticket b t u0) as Hshape; rewrite Heq in Hshape;
            excluded_answer (@accepted_inv Ticket) Hshape
        end ];
    rewrite ?count_app; unfold count; simpl; lia.
Qed.

(** One delivery, from any world, under the same conditions and for a
    message that can be parsed: forwarding adds no ticket submission, so
    one more is in the trace afterwards. *)
Lemma email_submits_one_ticket
    {U : Type} (srv : Upstream U) (message : Worker.Message)
    (env : Worker.Env) (raw : string) (text html : option string)
    (w : World U) :
  Worker.msg_raw message = Returned raw ->
  Worker.msg_text message = Returned text ->
  Worker.msg_html message = Returned html ->
  Js.truthy (Worker.ZAMMAD_API_TOKEN env) = true ->
  (forall base a u', search_answered (fst (on_search srv base a u')) = true) ->
  (forall base data roles u',
     customer_granted (fst (on_create_user srv base data roles u')) = true) ->
  (forall base data u',
     failure_error (fst (on_create_ticket srv base data u')) = None) ->
  count is_create_ticket (trace (snd (Worker.email srv message env w)))
  = S (count is_create_ticket (trace w)).
Proof.
  intros Hraw Htext Hhtml Htoken Hsearch Huser Hticket.
  cbv beta iota zeta delta
    [Worker.email Worker.parseEmail try_catch bind settle ret forward].
  rewrite Hraw, Htext, Hhtml.
  match goal with
  | |- context [Worker.createZammadTicket srv ?e env w] =>
      pose proof (createZammadTicket_submits_one_ticket srv e env w
                    Htoken Hsearch Huser Hticket) as Hone;
      destruct (Worker.createZammadTicket srv e env w) as [o w1]
  end.
  simpl in Hone.
  repeat split_answer; simpl; rewrite ?count_app; unfold count in *; simpl;
    lia.
Qed.

(** C1, as the code has it.  The entry point keeps no record of the
    message-ids it has processed: each delivery is handled on its own.
    For every ticketing system that answers the customer search, grants
    the customers it is asked to create and accepts the tickets
    submitted, for every message that can be parsed and with an API
    token configured, a delivery submits one ticket whatever was
    delivered before; two deliveries of the same message submit two
    tickets, one for each delivery. *)
Theorem each_delivery_submits_ticket
    {U : Type} (srv : Upstream U) (message : Worker.Message)
    (env : Worker.Env) (raw : string) (text html : option string) (u : U) :
  Worker.msg_raw message = Returned raw ->
  Worker.msg_text message = Returned text ->
  Worker.msg_html message = Returned html ->
  Js.truthy (Worker.ZAMMAD_API_TOKEN env) = true ->
  (forall base a u', search_answered (fst (on_search srv base a u')) = true) ->
  (forall base data roles u',
     customer_granted (fst (on_create_user srv base data roles u')) = true) ->
  (forall base data u',
     failure_error (fst (on_create_ticket srv base data u')) = None) ->
  let first := snd (Worker.email srv message env (start u)) in
  let second := snd (Worker.email srv message env first) in
  (forall w : World U,
     count is_create_ticket (trace (snd (Worker.email srv message env w)))
     = S (count is_create_ticket (trace w))) /\
  count is_create_ticket (trace first) = 1 /\
  count is_create_ticket (trace second) = 2.
Proof.
  intros Hraw Htext Hhtml Htoken Hsearch Huser Hticket first second.
  assert (Hone : forall w : World U,
             count is_create_ticket
               (trace (snd (Worker.email srv message env w)))
             = S (count is_create_ticket (trace w))).
  { intros w. now apply (email_submits_one_ticket srv message env
                           raw text html w). }
  split; [exact Hone|].
  assert (Hfirst : count is_create_ticket (trace first) = 1).
  { unfold first. rewrite Hone. reflexivity. }
  split; [exact Hfirst|]. unfold second. now rewrite Hone, Hfirst.
Qed.

Lemma each_delivery_submits_ticket_witness :
  let srv := Reference.directory Reference.exact 201 in
  let first := snd (Worker.email srv Sample.message Sample.env
                                 (start Sample.with_bob)) in
  let second := snd (Worker.email srv Sample.message Sample.env first) in
  count is_create_ticket (trace first) = 1 /\
  count is_create_ticket (trace second) = 2.
Proof.
  intros srv.
  refine (proj2 (each_delivery_submits_ticket srv Sample.message Sample.env
                   "raw" (Some "hello") (Some "<p>hello</p>")
                   Sample.with_bob _ _ _ _ _ _ _));
    try reflexivity; intros; reflexivity.
Defined.

(* ===================================================================== *)
(** ** Further properties: rule matching                                 *)
(* ===================================================================== *)

(** X1.  A rule that declares a keyword list without any keyword matches
    no message: [some] over an empty array is false.  The loop passes
    over such a rule, wherever it stands in front. *)
Theorem empty_keyword_list_never_matches
    (email : Email) (rule : Rule) (rest : list Rule) :
  toContains (rule_match rule) = Some [] \/
  subjectContains (rule_match rule) = Some [] ->
  rule_test email rule = false /\
  findMatchingRule email (rule :: rest) = findMatchingRule email rest.
Proof.
  intros H.
  assert (Ht : rule_test email rule = false).
  { unfold rule_test. destruct H as [H|H]; rewrite H; simpl.
    - now destruct (subjectContains (rule_match rule)).
    - destruct (toContains (rule_match rule));
        [apply andb_false_r | reflexivity]. }
  split; [exact Ht|]. simpl. now rewrite Ht.
Qed.

Lemma empty_keyword_list_never_matches_witness :
  let dead := {| rule_name := "dead";
                 rule_match := {| toContains := Some [];
                                  subjectContains := None |};
                 rule_action := rule_action Sample.sales_rule |} in
  rule_test Sample.email dead = false /\
  findMatchingRule Sample.email [dead; Sample.sales_rule]
  = findMatchingRule Sample.email [Sample.sales_rule].
Proof.
  intros dead.
  apply (empty_keyword_list_never_matches Sample.email dead
           [Sample.sales_rule]).
  left. reflexivity.
Defined.

Lemma includes_empty (s : string) : Js.includes s "" = true.
Proof. destruct s; reflexivity. Qed.

(** X2.  The empty keyword occurs in every field, also in a missing
    one: a rule all of whose declared lists contain the empty string
    matches every message. *)
Theorem empty_keyword_matches_everything (email : Email) (rule : Rule) :
  (forall keywords, toContains (rule_match rule) = Some keywords ->
                    In "" keywords) ->
  (forall keywords, subjectContains (rule_match rule) = Some keywords ->
                    In "" keywords) ->
  rule_test email rule = true.
Proof.
  intros Hto Hsubject. unfold rule_test.
  assert (Hany : forall field keywords,
             In "" keywords ->
             existsb (fun keyword =>
                        Js.includes field (Js.toLowerCase keyword))
                     keywords = true).
  { intros field keywords Hin. apply existsb_exists. exists "".
    split; [exact Hin | apply includes_empty]. }
  destruct (toContains (rule_match rule)) as [tks|],
           (subjectContains (rule_match rule)) as [sks|]; simpl;
    rewrite ?Hany; auto.
Qed.

Lemma empty_keyword_matches_everything_witness :
  let open := {| rule_name := "open";
                 rule_match := {| toContains := Some ["sales"; ""];
                                  subjectContains := None |};
                 rule_action := rule_action Sample.sales_rule |} in
  rule_test {| email_from := SenderMissing; email_to := None;
               email_subject := None; email_body := None;
               email_text := None; email_html := None |} open = true.
Proof.
  intros open. apply empty_keyword_matches_everything.
  - intros keywords [= <-]. right. left. reflexivity.
  - intros keywords H. discriminate H.
Defined.

Lemma rule_test_depends_on_lowered (a b : Email) (rule : Rule) :
  Js.toLowerCase (Js.or_else (email_to a) "")
  = Js.toLowerCase (Js.or_else (email_to b) "") ->
  Js.toLowerCase (Js.or_else (email_subject a) "")
  = Js.toLowerCase (Js.or_else (email_subject b) "") ->
  rule_test a rule = rule_test b rule.
Proof. intros Hto Hsubject. unfold rule_test. now rewrite Hto, Hsubject. Qed.

(** X3.  The rule found depends on the message only through its [to]
    and [subject], and on these only up to the case of letters: two
    messages whose recipients and subjects agree when lower-cased get
    the same rule, whatever their senders and bodies are. *)
Theorem findMatchingRule_reads_to_and_subject_only
    (a b : Email) (rules : list Rule) :
  same_ignoring_case (Js.or_else (email_to a) "")
                     (Js.or_else (email_to b) "") ->
  same_ignoring_case (Js.or_else (email_subject a) "")
                     (Js.or_else (email_subject b) "") ->
  findMatchingRule a rules = findMatchingRule b rules.
Proof.
  intros Hto Hsubject. induction rules as [|r rs IH]; simpl.
  - reflexivity.
  - rewrite (rule_test_depends_on_lowered a b r Hto Hsubject), IH.
    reflexivity.
Qed.

Lemma findMatchingRule_reads_to_and_subject_only_witness :
  findMatchingRule Sample.email [Sample.sales_rule]
  = findMatchingRule
      {| email_from := SenderMissing;
         email_to := Some "SALES@Example.COM";
         email_subject := Some "Quote Request";
         email_body := Some "other"; email_text := None;
         email_html := None |}
      [Sample.sales_rule].
Proof.
  apply findMatchingRule_reads_to_and_subject_only;
    vm_compute; reflexivity.
Defined.

(* ===================================================================== *)
(** ** Further properties: the constructor                               *)
(* ===================================================================== *)

(** X4.  An instance is enabled exactly when an API token is configured
    and [ZAMMAD_ENABLED] is not the string [false]; any other value of
    the setting, such as [FALSE], [0] or [no], leaves it enabled. *)
Theorem constructor_enabled_iff (config : Config) :
  enabled (constructor config) = true <->
  Js.truthy (ZAMMAD_API_TOKEN config) = true /\
  ZAMMAD_ENABLED config <> Some "false".
Proof.
  unfold constructor. cbn [enabled]. unfold not_false.
  destruct (Js.truthy (ZAMMAD_API_TOKEN config)); simpl.
  - destruct (ZAMMAD_ENABLED config) as [s|]; simpl.
    + destruct (String.eqb_spec s "false") as [->|Hne]; simpl.
      * split; [discriminate | intros [_ H]; now contradict H].
      * split; [intros _; split; congruence | reflexivity].
    + split; [intros _; split; congruence | reflexivity].
  - split; [|intros [H _]; discriminate].
    destruct (ZAMMAD_ENABLED config) as [s|]; simpl;
      [destruct (negb (s =? "false")%string)|]; discriminate.
Qed.

(* ===================================================================== *)
(** ** Further properties: names                                         *)
(* ===================================================================== *)

Lemma has_char_app (c : ascii) (a b : string) :
  has_char c (a ++ b) = has_char c a || has_char c b.
Proof.
  induction a as [|x a IH]; simpl; [reflexivity|].
  now rewrite IH, orb_assoc.
Qed.

Lemma capture_app (s : string) :
  s = (fst (Worker.capture s) ++ snd (Worker.capture s))%string.
Proof.
  induction s as [|c s IH]; simpl; [reflexivity|].
  destruct (Worker.name_char c); [|reflexivity].
  destruct (Worker.capture s) as [g rest]. simpl in *. now rewrite <- IH.
Qed.

Lemma capture_name_chars (s : string) (c : ascii) :
  has_char c (fst (Worker.capture s)) = true -> Worker.name_char c = true.
Proof.
  induction s as [|x s IH]; simpl; [discriminate|].
  destruct (Worker.name_char x) eqn:Hx; [|discriminate].
  destruct (Worker.capture s) as [g rest]. simpl in *.
  rewrite orb_true_iff, Ascii.eqb_eq. intros [<-|H]; auto.
Qed.

Lemma has_char_trimStart (c : ascii) (s : string) :
  has_char c (Js.trimStart s) = true -> has_char c s = true.
Proof.
  induction s as [|x s IH]; simpl; [discriminate|].
  destruct (Js.is_space x); simpl; intros H.
  - rewrite (IH H). apply orb_true_r.
  - exact H.
Qed.

Lemma has_char_trimEnd (c : ascii) (s : string) :
  has_char c (Js.trimEnd s) = true -> has_char c s = true.
Proof.
  induction s as [|x s IH]; simpl; [discriminate|].
  destruct (Js.trimEnd s) as [|y t] eqn:Ht.
  - destruct (Js.is_space x); simpl; [discriminate|].
    rewrite orb_false_r. intros ->. reflexivity.
  - simpl. rewrite !orb_true_iff. intros [H|H]; [now left|].
    right. apply IH. simpl. now apply orb_true_iff.
Qed.

Lemma has_char_trim (c : ascii) (s : string) :
  has_char c (Js.trim s) = true -> has_char c s = true.
Proof.
  unfold Js.trim. intros H.
  now apply has_char_trimStart, has_char_trimEnd.
Qed.

Lemma closes_has_langle (s : string) :
  Worker.closes s = true -> has_char Worker.langle s = true.
Proof.
  unfold Worker.closes. intros H.
  assert (Hin : forall t, match Js.trimStart t with
                          | String c _ => Ascii.eqb c Worker.langle
                          | EmptyString => false
                          end = true ->
                          has_char Worker.langle t = true).
  { intros t Ht. apply has_char_trimStart.
    destruct (Js.trimStart t) as [|c t']; [discriminate|].
    simpl. now rewrite Ht. }
  destruct s as [|c s]; [discriminate|].
  destruct (Ascii.eqb c Worker.quote); apply Hin in H.
  - simpl. rewrite H. apply orb_true_r.
  - exact H.
Qed.

(** X5.  [extractName] finds a display name only in front of an opening
    angle bracket: for an address that contains none, such as a bare
    [local@domain], it returns [null]. *)
Theorem extractName_needs_angle_bracket (emailAddress : string) :
  has_char Worker.langle emailAddress = false ->
  Worker.extractName emailAddress = None.
Proof.
  intros Hno. unfold Worker.extractName.
  set (start := match emailAddress with
                | String c s' =>
                    if Ascii.eqb c Worker.quote then s' else emailAddress
                | EmptyString => emailAddress
                end).
  assert (Hstart : has_char Worker.langle start = false).
  { subst start. destruct emailAddress as [|c s]; [reflexivity|].
    destruct (Ascii.eqb c Worker.quote); [|exact Hno].
    simpl in Hno. now apply orb_false_iff in Hno. }
  pose proof (capture_app start) as Happ.
  destruct (Worker.capture start) as [group rest]. simpl in Happ.
  destruct group as [|g group]; [reflexivity|].
  destruct (Worker.closes rest) eqn:Hc; [|reflexivity].
  apply closes_has_langle in Hc.
  rewrite Happ, has_char_app, Hc, orb_true_r in Hstart. discriminate.
Qed.

Lemma extractName_needs_angle_bracket_witness :
  Worker.extractName "ann@b.com" = None.
Proof.
  apply (extractName_needs_angle_bracket "ann@b.com"). reflexivity.
Defined.

Lemma trimStart_no_leading_space (s : string) :
  starts_with_space (Js.trimStart s) = false.
Proof.
  induction s as [|c s IH]; simpl; [reflexivity|].
  destruct (Js.is_space c) eqn:Hc; [exact IH | simpl; exact Hc].
Qed.

Lemma trimEnd_keeps_head (s : string) :
  starts_with_space s = false -> starts_with_space (Js.trimEnd s) = false.
Proof.
  destruct s as [|c s]; simpl; [reflexivity|]. intros Hc.
  destruct (Js.trimEnd s); [rewrite Hc|]; simpl; auto.
Qed.

Lemma trimEnd_no_trailing_space (s : string) :
  ends_with_space (Js.trimEnd s) = false.
Proof.
  induction s as [|c s IH]; simpl; [reflexivity|].
  destruct (Js.trimEnd s) as [|y t] eqn:Ht.
  - destruct (Js.is_space c) eqn:Hc; simpl; auto.
  - exact IH.
Qed.

(** X6.  A display name returned by [extractName] is trimmed and clean:
    it neither starts nor ends with white space, and it contains no
    double quote and no opening angle bracket. *)
Theorem extractName_is_trimmed_and_clean (emailAddress name : string) :
  Worker.extractName emailAddress = Some name ->
  starts_with_space name = false /\
  ends_with_space name = false /\
  has_char Worker.quote name = false /\
  has_char Worker.langle name = false.
Proof.
  unfold Worker.extractName.
  set (start := match emailAddress with
                | String c s' =>
                    if Ascii.eqb c Worker.quote then s' else emailAddress
                | EmptyString => emailAddress
                end).
  pose proof (capture_name_chars start) as Hchars.
  destruct (Worker.capture start) as [group rest]. simpl in Hchars.
  destruct group as [|g group]; [discriminate|].
  destruct (Worker.closes rest); [|discriminate].
  intros [= <-]. repeat split.
  - apply trimEnd_keeps_head, trimStart_no_leading_space.
  - apply trimEnd_no_trailing_space.
  - destruct (has_char Worker.quote (Js.trim (String g group))) eqn:H;
      [|reflexivity].
    apply has_char_trim, Hchars in H. discriminate H.
  - destruct (has_char Worker.langle (Js.trim (String g group))) eqn:H;
      [|reflexivity].
    apply has_char_trim, Hchars in H. discriminate H.
Qed.

Lemma extractName_is_trimmed_and_clean_witness :
  Worker.extractName "Ann Lee  <ann@b.com>" = Some "Ann Lee" /\
  starts_with_space "Ann Lee" = false /\
  ends_with_space "Ann Lee" = false /\
  has_char Worker.quote "Ann Lee" = false /\
  has_char Worker.langle "Ann Lee" = false.
Proof.
  split; [reflexivity|].
  apply (extractName_is_trimmed_and_clean "Ann Lee  <ann@b.com>").
  reflexivity.
Defined.

Lemma split_not_empty (sep : ascii) (s : string) : Js.split sep s <> [].
Proof.
  induction s as [|c s IH]; simpl; [discriminate|].
  destruct (Ascii.eqb c sep); [discriminate|].
  destruct (Js.split sep s); discriminate.
Qed.

(** Joining what [split] gave with the separator gives the string
    back. *)
Lemma join_split (sep : ascii) (s : string) :
  Js.join (String sep EmptyString) (Js.split sep s) = s.
Proof.
  unfold Js.join. induction s as [|c s IH]; simpl; [reflexivity|].
  pose proof (split_not_empty sep s) as Hne.
  destruct (Ascii.eqb_spec c sep) as [->|Hc].
  - destruct (Js.split sep s) as [|seg segs]; [contradiction|].
    simpl in *. now rewrite IH.
  - destruct (Js.split sep s) as [|seg segs]; [contradiction|].
    destruct segs as [|seg' segs]; simpl in *; now rewrite <- IH.
Qed.

Lemma split_without_separator (sep : ascii) (s : string) :
  has_char sep s = false -> Js.split sep s = [s].
Proof.
  induction s as [|c s IH]; simpl; [reflexivity|].
  rewrite orb_false_iff. intros [Hc Hs]. rewrite Hc, (IH Hs). reflexivity.
Qed.

(** X7.  First and last name recompose to the customer name: when the
    first name is not the whole name, the name is the first name, one
    space, and the last name.  A name without a space is all first name
    and the last name is empty. *)
Theorem names_recompose (customerName : string) :
  (firstname_of customerName <> customerName ->
   customerName
   = (firstname_of customerName ++ " " ++ lastname_of customerName)%string) /\
  (has_char " " customerName = false ->
   firstname_of customerName = customerName /\
   lastname_of customerName = "").
Proof.
  unfold firstname_of, lastname_of, Js.first, Js.slice1. split.
  - pose proof (join_split " " customerName) as Hjoin.
    destruct (Js.split " " customerName) as [|w segs] eqn:Hs.
    + now intros H.
    + simpl hd_error. simpl tl. unfold Js.join in *.
      destruct w as [|c w]; simpl Js.or_else; [now intros H|].
      intros Hne. destruct segs as [|seg segs].
      * simpl in Hjoin. congruence.
      * change (String.concat " " (String c w :: seg :: segs))
          with (String c w ++ " " ++ String.concat " " (seg :: segs))%string
          in Hjoin.
        rewrite <- Hjoin at 1.
        now destruct (String.concat " " (seg :: segs)).
  - intros Hno. rewrite (split_without_separator " " customerName Hno).
    simpl. split; [now destruct customerName | reflexivity].
Qed.

Lemma names_recompose_witness :
  "Ann Lee Jones"
  = (firstname_of "Ann Lee Jones" ++ " " ++ lastname_of "Ann Lee Jones")%string
  /\ (firstname_of "ann" = "ann" /\ lastname_of "ann" = "").
Proof.
  split.
  - apply (proj1 (names_recompose "Ann Lee Jones")). discriminate.
  - apply (proj2 (names_recompose "ann")). reflexivity.
Defined.

(* ===================================================================== *)
(** ** Further properties: the order of requests                         *)
(* ===================================================================== *)

(** X8.  [createTicket] talks to the ticketing system in a fixed order:
    the customer search comes first and is made for the sender's
    address, a customer creation can only follow it, and the ticket
    submission, when there is one, is the last request. *)
Theorem createTicket_request_order
    {U : Type} (srv : Upstream U) (this : Instance)
    (email : Email) (domainConfig : DomainConfig) (u : U) :
  let base := client_base this in
  let requests :=
    trace (snd (createTicket srv this email domainConfig (start u))) in
  requests = [] \/
  exists a rest,
    customerEmail_of (email_from email) = Returned a /\
    requests = SearchUsers base a :: rest /\
    (rest = [] \/
     (exists d, rest = [CreateUser base d ["Customer"]] /\ cd_email d = a) \/
     (exists t, rest = [CreateTicket base t]) \/
     (exists d t, rest = [CreateUser base d ["Customer"];
                          CreateTicket base t] /\ cd_email d = a)).
Proof.
  run_calls;
    first
      [ left; reflexivity
      | right; do 2 eexists; split; [reflexivity|];
        split; [reflexivity|];
        first
          [ left; reflexivity
          | right; left; eexists; split; reflexivity
          | right; right; left; eexists; reflexivity
          | right; right; right; do 2 eexists; split; reflexivity ] ].
Qed.

(** X9.  The worker's [createZammadTicket] keeps the same order: search
    for the sender, then at most one customer creation, then at most
    one ticket submission, all at the configured base address. *)
Theorem createZammadTicket_request_order
    {U : Type} (srv : Upstream U) (email : Worker.Parsed)
    (env : Worker.Env) (u : U) :
  let base := (Worker.zammad_url env ++ "/api/v1")%string in
  let a := Addr (Worker.from email) in
  let requests :=
    trace (snd (Worker.createZammadTicket srv email env (start u))) in
  requests = [] \/
  exists rest,
    requests = SearchUsers base a :: rest /\
    (rest = [] \/
     (exists d, rest = [CreateUser base d ["Customer"]] /\ cd_email d = a) \/
     (exists t, rest = [CreateTicket base t]) \/
     (exists d t, rest = [CreateUser base d ["Customer"];
                          CreateTicket base t] /\ cd_email d = a)).
Proof.
  run_calls;
    first
      [ left; reflexivity
      | right; eexists; split; [reflexivity|];
        first
          [ left; reflexivity
          | right; left; eexists; split; reflexivity
          | right; right; left; eexists; reflexivity
          | right; right; right; do 2 eexists; split; reflexivity ] ].
Qed.

(* ===================================================================== *)
(** ** Further properties: the customer of a ticket                      *)
(* ===================================================================== *)

(** X10.  When the search finds customers, the ticket is filed under the
    first of them and no customer is created, in the integration and in
    the worker alike. *)
Theorem ticket_filed_under_found_customer
    {U : Type} (srv : Upstream U) (this : Instance)
    (email : Email) (domainConfig : DomainConfig)
    (parsed : Worker.Parsed) (env : Worker.Env) (u : U) :
  (forall a c base t,
     customerEmail_of (email_from email) = Returned a ->
     first_result (fst (on_search srv (client_base this) a u)) = Some c ->
     In (CreateTicket base t)
        (trace (snd (createTicket srv this email domainConfig (start u)))) ->
     td_customer_id t = customer_id c /\
     count is_create_user
       (trace (snd (createTicket srv this email domainConfig (start u))))
     = 0) /\
  (forall c base t,
     first_result
       (fst (on_search srv (Worker.zammad_url env ++ "/api/v1")%string
                       (Addr (Worker.from parsed)) u)) = Some c ->
     In (CreateTicket base t)
        (trace (snd (Worker.createZammadTicket srv parsed env (start u)))) ->
     td_customer_id t = customer_id c /\
     count is_create_user
       (trace (snd (Worker.createZammadTicket srv parsed env (start u))))
     = 0).
Proof.
  split.
  - intros a c base t Ha. unfold first_result. unfold_calls. rewrite Ha.
    repeat split_answer; intros Hfound Hin; agree_answers;
      try discriminate Hfound;
      pick_request Hin; injection Hfound as <-; injection Hin as _ <-;
      split; reflexivity.
  - intros c base t. unfold first_result. unfold_calls.
    repeat split_answer; intros Hfound Hin; agree_answers;
      try discriminate Hfound;
      pick_request Hin; injection Hfound as <-; injection Hin as _ <-;
      split; reflexivity.
Qed.

(** X11.  When a customer is created, the ticket is filed under the
    customer the directory answered the creation with. *)
Theorem ticket_filed_under_created_customer
    {U : Type} (srv : Upstream U) (this : Instance)
    (email : Email) (domainConfig : DomainConfig)
    (parsed : Worker.Parsed) (env : Worker.Env) (u : U)
    (status : Z) (c : Customer) :
  (forall base data roles u',
     fst (on_create_user srv base data roles u')
     = Http status (JsonValue c)) ->
  (forall base data roles base' t,
     In (CreateUser base data roles)
        (trace (snd (createTicket srv this email domainConfig (start u)))) ->
     In (CreateTicket base' t)
        (trace (snd (createTicket srv this email domainConfig (start u)))) ->
     td_customer_id t = customer_id c) /\
  (forall base data roles base' t,
     In (CreateUser base data roles)
        (trace (snd (Worker.createZammadTicket srv parsed env (start u)))) ->
     In (CreateTicket base' t)
        (trace (snd (Worker.createZammadTicket srv parsed env (start u)))) ->
     td_customer_id t = customer_id c).
Proof.
  intros Hcreate. split; intros base data roles base' t; unfold_calls;
    repeat split_answer; intros Huser Hin; agree_answers;
    pick_request Huser; pick_request Hin;
    use_user_answer Hcreate; injection Hanswer as -> ->;
    injection Hin as _ <-; simpl in *; congruence.
Qed.

Lemma ticket_filed_under_found_customer_witness :
  let srv := Reference.directory Reference.exact 201 in
  let t := ticketData_of Scenario.bob_email Sample.domain
             (Addr "bob@example.com") (Some 7%Z) in
  let t' := Worker.ticketData_of Scenario.bob_parsed "bob@example.com"
              (Some 7%Z) in
  (td_customer_id t = customer_id Sample.bob /\
   count is_create_user
     (trace (snd (createTicket srv (constructor Sample.config)
                    Scenario.bob_email Sample.domain
                    (start Sample.with_bob)))) = 0) /\
  (td_customer_id t' = customer_id Sample.bob /\
   count is_create_user
     (trace (snd (Worker.createZammadTicket srv Scenario.bob_parsed
                    Sample.env (start Sample.with_bob)))) = 0).
Proof.
  intros srv t t'.
  pose proof (ticket_filed_under_found_customer srv
                (constructor Sample.config) Scenario.bob_email Sample.domain
                Scenario.bob_parsed Sample.env Sample.with_bob)
    as [Hint Hwork].
  split.
  - apply (Hint (Addr "bob@example.com") Sample.bob
             "https://help.vln.gg/api/v1" t); try reflexivity.
    right. left. reflexivity.
  - apply (Hwork Sample.bob "https://help.vln.gg/api/v1" t');
      try reflexivity.
    right. left. reflexivity.
Defined.

Lemma ticket_filed_under_created_customer_witness :
  let srv := Scenario.scripted 200 201 Sample.bob in
  let t := Worker.ticketData_of Sample.parsed "ann@b.com" (Some 7%Z) in
  In (CreateTicket "https://help.vln.gg/api/v1" t)
     (trace (snd (Worker.createZammadTicket srv Sample.parsed Sample.env
                    (start tt)))) /\
  td_customer_id t = customer_id Sample.bob.
Proof.
  intros srv t. split; [right; right; left; reflexivity|].
  refine (proj2 (ticket_filed_under_created_customer srv
                   (constructor Sample.config) Sample.email Sample.domain
                   Sample.parsed Sample.env tt 201 Sample.bob _)
                "https://help.vln.gg/api/v1"
                {| cd_email := Addr "ann@b.com"; cd_firstname := "ann";
                   cd_lastname := "" |}
                ["Customer"] "https://help.vln.gg/api/v1" t _ _).
  - intros base data roles u'. reflexivity.
  - right. left. reflexivity.
  - right. right. left. reflexivity.
Defined.

(* ===================================================================== *)
(** ** Further properties: outcomes                                      *)
(* ===================================================================== *)

(** X12.  A ticket is reported only when one was submitted: if either
    function returns a value other than [null], the ticket submission
    was made once and is the last request.  For [createTicket] the
    instance is then enabled and the value is not a [null] body. *)
Theorem returned_ticket_was_submitted
    {U : Type} (srv : Upstream U) (this : Instance)
    (email : Email) (domainConfig : DomainConfig)
    (parsed : Worker.Parsed) (env : Worker.Env) (u : U) :
  (forall data,
     fst (createTicket srv this email domainConfig (start u))
     = Returned (Some data) ->
     enabled this = true /\ data <> JsonNull /\
     exists before base t,
       trace (snd (createTicket srv this email domainConfig (start u)))
       = before ++ [CreateTicket base t] /\
       count is_create_ticket before = 0) /\
  (forall ticket,
     fst (Worker.createZammadTicket srv parsed env (start u))
     = Returned (Some ticket) ->
     exists before base t,
       trace (snd (Worker.createZammadTicket srv parsed env (start u)))
       = before ++ [CreateTicket base t] /\
       count is_create_ticket before = 0).
Proof.
  split.
  - intros data. unfold_calls. destruct (enabled this); simpl;
      [|discriminate].
    repeat split_answer; intros H; try discriminate H;
      injection H as <-;
      (split; [reflexivity|]);
      (split; [intros ->; simpl in *; discriminate|]);
      first
        [ exists [SearchUsers (client_base this) a]; do 2 eexists;
          split; reflexivity
        | eexists [SearchUsers (client_base this) a; _]; do 2 eexists;
          split; reflexivity ].
  - intros ticket. unfold_calls.
    repeat split_answer; intros H; try discriminate H;
      first
        [ eexists [_]; do 2 eexists; split; reflexivity
        | eexists [_; _]; do 2 eexists; split; reflexivity ].
Qed.

Lemma returned_ticket_was_submitted_witness :
  let srv := Reference.directory Reference.exact 201 in
  exists before base t,
    trace (snd (Worker.createZammadTicket srv Sample.parsed Sample.env
                  (start Reference.empty)))
    = before ++ [CreateTicket base t] /\
    count is_create_ticket before = 0.
Proof.
  intros srv.
  apply (proj2 (returned_ticket_was_submitted srv
                  (constructor Sample.config) Sample.email Sample.domain
                  Sample.parsed Sample.env Reference.empty)
               {| ticket_id := Some 2%Z; ticket_title := "quote request" |}).
  reflexivity.
Defined.

(** X13.  No ticket without a customer: when the directory refuses the
    creation of the customer (no response, or a status outside 2xx), no
    ticket is submitted.  [createTicket] rejects with the error of the
    refused creation; the worker's [createZammadTicket] returns
    [null]. *)
Theorem refused_customer_means_no_ticket
    {U : Type} (srv : Upstream U) (this : Instance)
    (email : Email) (domainConfig : DomainConfig)
    (parsed : Worker.Parsed) (env : Worker.Env) (u : U) (err : Error) :
  (forall base data roles u',
     failure_error (fst (on_create_user srv base data roles u'))
     = Some err) ->
  (forall base data roles,
     In (CreateUser base data roles)
        (trace (snd (createTicket srv this email domainConfig (start u)))) ->
     fst (createTicket srv this email domainConfig (start u)) = Thrown err /\
     count is_create_ticket
       (trace (snd (createTicket srv this email domainConfig (start u))))
     = 0) /\
  (forall base data roles,
     In (CreateUser base data roles)
        (trace (snd (Worker.createZammadTicket srv parsed env (start u)))) ->
     fst (Worker.createZammadTicket srv parsed env (start u))
     = Returned None /\
     count is_create_ticket
       (trace (snd (Worker.createZammadTicket srv parsed env (start u))))
     = 0).
Proof.
  intros Hrefuse. split; intros base data roles; unfold_calls;
    repeat split_answer; intros Huser; pick_request Huser;
    use_user_answer Hrefuse;
    try match goal with
        | H : context [status_ok ?s] |- _ =>
            destruct (status_ok s) eqn:?; try discriminate
        end;
    simpl in *; try discriminate;
    split; try reflexivity; congruence.
Qed.

Lemma refused_customer_means_no_ticket_witness :
  let srv := Scenario.scripted 200 422 Sample.bob in
  fst (Worker.createZammadTicket srv Sample.parsed Sample.env (start tt))
  = Returned None /\
  count is_create_ticket
    (trace (snd (Worker.createZammadTicket srv Sample.parsed Sample.env
                   (start tt)))) = 0.
Proof.
  intros srv.
  refine (proj2 (refused_customer_means_no_ticket srv
                   (constructor Sample.config) Sample.email Sample.domain
                   Sample.parsed Sample.env tt (HttpError 422) _)
                "https://help.vln.gg/api/v1"
                {| cd_email := Addr "ann@b.com"; cd_firstname := "ann";
                   cd_lastname := "" |}
                ["Customer"] _).
  - intros base data roles u'. reflexivity.
  - right. left. reflexivity.
Defined.

(** X14.  An e-mail without sender stops [createTicket] before any
    request: when [email.from] is missing, or is an object with neither
    an address nor a name, an enabled instance rejects with a
    [TypeError] and the world is as it was. *)
Theorem createTicket_rejects_missing_sender
    {U : Type} (srv : Upstream U) (this : Instance)
    (email : Email) (domainConfig : DomainConfig) (w : World U) :
  enabled this = true ->
  email_from email = SenderMissing \/
  (exists address name,
     email_from email = SenderObject address name /\
     Js.truthy address = false /\ Js.truthy name = false) ->
  createTicket srv this email domainConfig w = (Thrown TypeError, w).
Proof.
  intros Hon Hfrom. unfold createTicket. rewrite Hon. simpl negb. cbv iota.
  unfold try_catch, bind, settle, throw.
  destruct Hfrom as [->|(address & name & -> & Ha & Hn)]; simpl.
  - reflexivity.
  - destruct address as [[|c a]|], name as [[|c' n]|];
      simpl in *; try discriminate; reflexivity.
Qed.

Lemma createTicket_rejects_missing_sender_witness :
  let srv := Reference.directory Reference.exact 201 in
  createTicket srv (constructor Sample.config) Scenario.anonymous
               Sample.domain (start Reference.empty)
  = (Thrown TypeError, start Reference.empty).
Proof.
  intros srv. apply createTicket_rejects_missing_sender.
  - reflexivity.
  - left. reflexivity.
Defined.

(** X15.  The two implementations differ when the search itself is
    answered with a status outside 2xx.  [createTicket] rejects with
    that status and creates nothing; the worker goes on to create a
    customer as if the search had found nobody. *)
Theorem failed_search_rejects_or_creates
    {U : Type} (srv : Upstream U) (this : Instance)
    (email : Email) (domainConfig : DomainConfig)
    (parsed : Worker.Parsed) (env : Worker.Env) (u : U)
    (status : Z) (body : Body (list Customer)) :
  (forall base a u', fst (on_search srv base a u') = Http status body) ->
  status_ok status = false ->
  (let run := createTicket srv this email domainConfig (start u) in
   count is_create_user (trace (snd run)) = 0 /\
   count is_create_ticket (trace (snd run)) = 0 /\
   (count is_search (trace (snd run)) = 1 ->
    fst run = Thrown (HttpError status))) /\
  (Js.truthy (Worker.ZAMMAD_API_TOKEN env) = true ->
   exists data rest,
     trace (snd (Worker.createZammadTicket srv parsed env (start u)))
     = SearchUsers (Worker.zammad_url env ++ "/api/v1")%string
                   (Addr (Worker.from parsed))
       :: CreateUser (Worker.zammad_url env ++ "/api/v1")%string data
                     ["Customer"]
       :: rest).
Proof.
  intros Hsearch Hbad. split.
  - unfold_calls.
    repeat split_answer; try use_search_answer Hsearch;
      try (injection Hanswer as -> ->); try congruence;
      unfold count; simpl; repeat split; try reflexivity;
      try discriminate; congruence.
  - intros Htoken. unfold_calls. rewrite Htoken. simpl.
    repeat split_answer; try use_search_answer Hsearch;
      try (injection Hanswer as -> ->); try congruence;
      do 2 eexists; reflexivity.
Qed.

Lemma failed_search_rejects_or_creates_witness :
  let srv := Scenario.scripted 500 201 Sample.bob in
  (let run := createTicket srv (constructor Sample.config) Sample.email
                Sample.domain (start tt) in
   count is_create_user (trace (snd run)) = 0 /\
   count is_create_ticket (trace (snd run)) = 0 /\
   (count is_search (trace (snd run)) = 1 ->
    fst run = Thrown (HttpError 500))) /\
  (Js.truthy (Worker.ZAMMAD_API_TOKEN Sample.env) = true ->
   exists data rest,
     trace (snd (Worker.createZammadTicket srv Sample.parsed Sample.env
                   (start tt)))
     = SearchUsers (Worker.zammad_url Sample.env ++ "/api/v1")%string
                   (Addr (Worker.from Sample.parsed))
       :: CreateUser (Worker.zammad_url Sample.env ++ "/api/v1")%string data
                     ["Customer"]
       :: rest).
Proof.
  intros srv.
  apply (failed_search_rejects_or_creates srv (constructor Sample.config)
           Sample.email Sample.domain Sample.parsed Sample.env tt
           500 (JsonValue [])).
  - intros base a u'. reflexivity.
  - reflexivity.
Defined.

(* ===================================================================== *)
(** ** Further properties: the worker                                    *)
(* ===================================================================== *)

(** X16.  [createZammadTicket] never rejects: whatever the upstream
    does, it resolves to a ticket or to [null].  Without an API token it
    resolves to [null] at once, and nothing is asked of the upstream. *)
Theorem createZammadTicket_always_resolves
    {U : Type} (srv : Upstream U) (email : Worker.Parsed)
    (env : Worker.Env) (w : World U) :
  (exists ticket,
     fst (Worker.createZammadTicket srv email env w) = Returned ticket) /\
  (Js.truthy (Worker.ZAMMAD_API_TOKEN env) = false ->
   Worker.createZammadTicket srv email env w = (Returned None, w)).
Proof.
  split.
  - run_calls; eauto.
  - intros Htoken. unfold Worker.createZammadTicket. now rewrite Htoken.
Qed.

Lemma createZammadTicket_always_resolves_witness :
  let srv := Reference.directory Reference.exact 201 in
  Worker.createZammadTicket srv Sample.parsed Scenario.no_token
                            (start Reference.empty)
  = (Returned None, start Reference.empty).
Proof.
  intros srv.
  apply (proj2 (createZammadTicket_always_resolves srv Sample.parsed
                  Scenario.no_token (start Reference.empty))).
  reflexivity.
Defined.

(** X17.  Without a forwarding destination the entry point forwards
    nothing and cannot fail: a message that cannot be parsed and a
    ticket that cannot be created both end in a resolved promise. *)
Theorem email_without_destination_resolves
    {U : Type} (srv : Upstream U) (message : Worker.Message)
    (env : Worker.Env) (u : U) :
  Js.truthy (Worker.FORWARD_TO env) = false ->
  fst (Worker.email srv message env (start u)) = Returned tt /\
  count is_forward (trace (snd (Worker.email srv message env (start u))))
  = 0.
Proof.
  intros Hto. unfold_calls. rewrite Hto.
  repeat split_answer; split; reflexivity.
Qed.

Lemma email_without_destination_resolves_witness :
  fst (Worker.email Reference.unreachable Sample.unreadable
                    Scenario.no_forward (start tt)) = Returned tt /\
  count is_forward
    (trace (snd (Worker.email Reference.unreachable Sample.unreadable
                              Scenario.no_forward (start tt)))) = 0.
Proof.
  apply email_without_destination_resolves. reflexivity.
Defined.

(** X18.  With a transport that forwards, every message is forwarded
    exactly once, after everything that is sent to the ticketing system,
    and the entry point resolves. *)
Theorem email_forwards_once_when_transport_works
    {U : Type} (srv : Upstream U) (message : Worker.Message)
    (env : Worker.Env) (dest : string) (u : U) :
  (forall d u', fst (on_forward srv d u') = None) ->
  Worker.FORWARD_TO env = Some dest ->
  dest <> "" ->
  fst (Worker.email srv message env (start u)) = Returned tt /\
  exists api,
    trace (snd (Worker.email srv message env (start u)))
    = api ++ [Forward dest] /\
    count is_forward api = 0.
Proof.
  intros Hworks Hto Hdest. unfold_calls. rewrite Hto.
  destruct dest as [|c dest]; [contradiction|]. simpl.
  repeat split_answer; try forward_worked Hworks;
    (split; [reflexivity|]);
    first [ exists []; split; reflexivity
          | eexists [_]; split; reflexivity
          | eexists [_; _]; split; reflexivity
          | eexists [_; _; _]; split; reflexivity ].
Qed.

Lemma email_forwards_once_when_transport_works_witness :
  let srv := Reference.directory Reference.exact 503 in
  fst (Worker.email srv Sample.message Sample.env (start Reference.empty))
  = Returned tt /\
  exists api,
    trace (snd (Worker.email srv Sample.message Sample.env
                             (start Reference.empty)))
    = api ++ [Forward "me@home.example"] /\
    count is_forward api = 0.
Proof.
  intros srv. apply email_forwards_once_when_transport_works.
  - intros d u'. reflexivity.
  - reflexivity.
  - discriminate.
Defined.

(** X19.  The entry point rejects only when forwarding failed: if
    [email] ends in an error, a destination is configured, the last
    thing done was an attempt to forward, made after everything sent to
    the ticketing system and after at most one earlier attempt, and the
    error is the one the transport raised for it. *)
Theorem email_rejects_only_when_forward_fails
    {U : Type} (srv : Upstream U) (message : Worker.Message)
    (env : Worker.Env) (u : U) (e : Error) :
  fst (Worker.email srv message env (start u)) = Thrown e ->
  Js.truthy (Worker.FORWARD_TO env) = true /\
  exists before dest u',
    trace (snd (Worker.email srv message env (start u)))
    = before ++ [Forward dest] /\
    (count is_forward before <= 1) /\
    fst (on_forward srv dest u') = Some e.
Proof.
  unfold_calls. destruct (Js.truthy (Worker.FORWARD_TO env)); simpl.
  - repeat split_answer; intros H; try discriminate H;
      injection H as <-; (split; [reflexivity|]);
      match goal with
      | Hf : on_forward srv ?d ?u' = (Some _, _) |- _ =>
          first
            [ exists [], d, u'; failed_forward_last Hf
            | eexists [_], d, u'; failed_forward_last Hf
            | eexists [_; _], d, u'; failed_forward_last Hf
            | eexists [_; _; _], d, u'; failed_forward_last Hf
            | eexists [_; _; _; _], d, u'; failed_forward_last Hf ]
      end.
  - repeat split_answer; intros H; discriminate H.
Qed.

Lemma email_rejects_only_when_forward_fails_witness :
  Js.truthy (Worker.FORWARD_TO Sample.env) = true /\
  exists before dest u',
    trace (snd (Worker.email Reference.unreachable Sample.message
                             Sample.env (start tt)))
    = before ++ [Forward dest] /\
    (count is_forward before <= 1) /\
    fst (on_forward Reference.unreachable dest u')
    = Some (PlainError "forward failed").
Proof.
  apply (email_rejects_only_when_forward_fails Reference.unreachable
           Sample.message Sample.env tt (PlainError "forward failed")).
  reflexivity.
Defined.

Lemma email_ticket_comes_from_parsed
    {U : Type} (srv : Upstream U) (message : Worker.Message)
    (env : Worker.Env) (u : U) (base : string) (t : TicketData) :
  In (CreateTicket base t)
     (trace (snd (Worker.email srv message env (start u)))) ->
  exists raw text html customer_id,
    Worker.msg_raw message = Returned raw /\
    Worker.msg_text message = Returned text /\
    Worker.msg_html message = Returned html /\
    base = (Worker.zammad_url env ++ "/api/v1")%string /\
    t = Worker.ticketData_of
          {| Worker.from := Worker.msg_from message;
             Worker.to := Worker.msg_to message;
             Worker.subject :=
               Worker.headers_get "subject" (Worker.msg_headers message);
             Worker.text := text;
             Worker.html := Worker.or_null html;
             Worker.headers := Worker.msg_headers message;
             Worker.rawEmail := raw |}
          (Worker.msg_from message) customer_id.
Proof.
  run_calls; intros Hin; pick_request Hin; injection Hin as <- <-;
    do 4 eexists; repeat split; reflexivity.
Qed.

(** X20.  From delivery to ticket: every ticket the entry point submits
    goes to the configured base address, names the envelope sender and
    recipient of the message in its article, takes its title from the
    [subject] header, or [(No Subject)] when the header is missing or
    empty, and is an incoming e-mail of a customer in group [Users]. *)
Theorem email_ticket_reflects_message
    {U : Type} (srv : Upstream U) (message : Worker.Message)
    (env : Worker.Env) (u : U) (base : string) (t : TicketData) :
  In (CreateTicket base t)
     (trace (snd (Worker.email srv message env (start u)))) ->
  base = (Worker.zammad_url env ++ "/api/v1")%string /\
  article_from (td_article t) = Addr (Worker.msg_from message) /\
  article_to (td_article t) = Some (Worker.msg_to message) /\
  (forall s, Worker.headers_get "subject" (Worker.msg_headers message)
             = Some s -> s <> "" -> td_title t = s) /\
  (Js.truthy (Worker.headers_get "subject" (Worker.msg_headers message))
   = false -> td_title t = "(No Subject)") /\
  article_subject (td_article t) = td_title t /\
  article_type (td_article t) = "email" /\
  article_sender (td_article t) = "Customer" /\
  article_internal (td_article t) = Some false /\
  td_group t = "Users".
Proof.
  intros Hin. apply email_ticket_comes_from_parsed in Hin.
  destruct Hin as (raw & text & html & cid & _ & _ & _ & -> & ->).
  unfold Worker.ticketData_of. simpl.
  repeat match goal with |- _ /\ _ => split end; try reflexivity.
  - intros s -> Hs. now destruct s.
  - apply or_else_falsy.
Qed.

Lemma email_ticket_reflects_message_witness :
  let srv := Reference.directory Reference.exact 201 in
  let t := Worker.ticketData_of Sample.parsed "ann@b.com" (Some 1%Z) in
  article_from (td_article t) = Addr "ann@b.com" /\
  article_to (td_article t) = Some "sales@example.com" /\
  td_title t = "quote request".
Proof.
  intros srv t.
  destruct (email_ticket_reflects_message srv Sample.message Sample.env
              Reference.empty "https://help.vln.gg/api/v1" t)
    as (_ & Hfrom & Hto & Htitle & _).
  - right. right. left. reflexivity.
  - split; [exact Hfrom|]. split; [exact Hto|].
    apply (Htitle "quote request"); [reflexivity | discriminate].
Defined.

(* ===================================================================== *)
(** ** Further properties: the connection test                           *)
(* ===================================================================== *)

(** X21.  [testConnection] never rejects.  A disabled instance reports
    failure without asking the upstream; an enabled one asks once, and
    reports success, with the user the upstream sent, exactly when the
    answer has a 2xx status. *)
Theorem testConnection_reports
    {U : Type} (this : Instance) (on_me : U -> Response Customer * U)
    (w : World U) :
  exists result,
    fst (testConnection this on_me w) = Returned result /\
    trace (snd (testConnection this on_me w)) = trace w /\
    (enabled this = false ->
     result = NotConnected (Text "Zammad integration disabled") /\
     snd (testConnection this on_me w) = w) /\
    (enabled this = true ->
     upstream (snd (testConnection this on_me w))
     = snd (on_me (upstream w))) /\
    (forall user,
       result = Connected user <->
       enabled this = true /\
       exists status,
         fst (on_me (upstream w)) = Http status user /\
         status_ok status = true).
Proof.
  cbv beta iota zeta delta [testConnection try_catch bind axios ret throw].
  destruct (enabled this); simpl.
  - destruct (on_me (upstream w)) as [[message|status body] u'] eqn:Hme;
      simpl; [|destruct (status_ok status) eqn:Hok; simpl].
    + eexists. split; [reflexivity|]. split; [reflexivity|].
      split; [discriminate|]. split; [reflexivity|].
      intros user. split; [discriminate|].
      intros (_ & s & H & _). discriminate H.
    + eexists. split; [reflexivity|]. split; [reflexivity|].
      split; [discriminate|]. split; [reflexivity|].
      intros user. split.
      * intros [= <-]. split; [reflexivity|]. now exists status.
      * intros (_ & s & [= _ <-] & _). reflexivity.
    + eexists. split; [reflexivity|]. split; [reflexivity|].
      split; [discriminate|]. split; [reflexivity|].
      intros user. split; [discriminate|].
      intros (_ & s & [= <- _] & Hs). congruence.
  - eexists. split; [reflexivity|]. split; [reflexivity|].
    split; [intros _; split; reflexivity|]. split; [discriminate|].
    intros user. split; [discriminate|]. intros [H _]. discriminate H.
Qed.

(* ===================================================================== *)
(** ** Further properties: routing fields of the integration             *)
(* ===================================================================== *)

Lemma createTicket_payload_sender
    {U : Type} (srv : Upstream U) (this : Instance)
    (email : Email) (domainConfig : DomainConfig) (u : U)
    (base : string) (t : TicketData) :
  In (CreateTicket base t)
     (trace (snd (createTicket srv this email domainConfig (start u)))) ->
  exists a customer_id,
    customerEmail_of (email_from email) = Returned a /\
    base = client_base this /\
    t = ticketData_of email domainConfig a customer_id.
Proof.
  run_calls; intros Hin; pick_request Hin; injection Hin as <- <-;
    do 2 eexists; repeat split; reflexivity.
Qed.

(** X22.  Every ticket [createTicket] submits goes to the API of the
    configured base address and is routed by the domain: its group is
    the group of the domain's [zammad] settings, or [Users] when the
    domain sets none; its article names the sender's address and the
    recipient of the e-mail, and is an incoming e-mail of a customer. *)
Theorem createTicket_routing_fields
    {U : Type} (srv : Upstream U) (this : Instance)
    (email : Email) (domainConfig : DomainConfig) (u : U)
    (base : string) (t : TicketData) :
  In (CreateTicket base t)
     (trace (snd (createTicket srv this email domainConfig (start u)))) ->
  base = (baseUrl this ++ "/api/v1")%string /\
  customerEmail_of (email_from email)
  = Returned (article_from (td_article t)) /\
  article_to (td_article t) = email_to email /\
  (forall z, dc_zammad domainConfig = Some z ->
             Js.truthy (zc_group z) = true ->
             Some (td_group t) = zc_group z) /\
  (forall z, dc_zammad domainConfig = Some z ->
             Js.truthy (zc_group z) = false -> td_group t = "Users") /\
  (dc_zammad domainConfig = None -> td_group t = "Users") /\
  article_subject (td_article t) = td_title t /\
  article_type (td_article t) = "email" /\
  article_sender (td_article t) = "Customer".
Proof.
  intros Hin. apply createTicket_payload_sender in Hin.
  destruct Hin as (a & cid & Ha & -> & ->).
  unfold ticketData_of, group_of.
  cbn [td_title td_group td_article article_from article_to article_subject
       article_type article_sender].
  repeat match goal with |- _ /\ _ => split end; try reflexivity.
  - exact Ha.
  - intros z -> Hg. now apply or_else_truthy.
  - intros z -> Hg. now apply or_else_falsy.
  - intros ->. reflexivity.
Qed.

Lemma createTicket_routing_fields_witness :
  let srv := Reference.directory Reference.exact 201 in
  let t := ticketData_of Sample.email Sample.domain (Addr "ann@b.com")
             (Some 1%Z) in
  article_to (td_article t) = Some "sales@example.com" /\
  td_group t = "Users".
Proof.
  intros srv t.
  destruct (createTicket_routing_fields srv (constructor Sample.config)
              Sample.email Sample.domain Reference.empty
              "https://help.vln.gg/api/v1" t)
    as (_ & _ & Hto & _ & _ & Hgroup & _).
  - right. right. left. reflexivity.
  - split; [exact Hto | exact (Hgroup eq_refl)].
Defined.
